(** * pssst-chat: the interactive session of [src/pssst-chat.py]

    A shallow embedding of the [PssstChat] class and of the session part
    of [main].  The program is Python 2 code: [screen.getstr()] yields a
    byte string ([str]), which is compared with ['exit'] and matched
    against a [str] pattern, and [data.decode("utf-8")] turns a pulled
    byte string into a [unicode] object.  Byte strings are modelled by
    [string] (a Rocq [ascii] is one byte), decoded text by lists of
    code points, Python integers by [Z].

    The Pssst collaborator, curses and the user are outside the
    program: what they answer (the outcome of [push], [pull] and of the
    [Pssst] constructor, the typed line, the terminal geometry, whether
    the screen takes or refuses a call) is an argument of the embedded
    functions, and what the program asks of them is recorded, in order,
    in a trace of events.

    Each method is embedded as a function that runs it in one go, and
    as a program of single statements; the foreground of [run] and the
    background of [__thread] alternate between the statements of their
    programs, and a program run without interruption is the
    function. *)

From Stdlib Require Import List String Ascii ZArith Lia Bool Arith.
Import ListNotations.

Local Open Scope string_scope.

(** ** Python byte strings *)

Module Py.

(** [len(s)] *)
Definition len (s : string) : Z := Z.of_nat (String.length s).

(** C-locale [isspace]: space, \t, \n, \v, \f, \r. *)
Definition isspace (c : ascii) : bool :=
  let n := nat_of_ascii c in
  Nat.eqb n 32 || (Nat.leb 9 n && Nat.leb n 13).

(** C-locale [tolower] on one byte. *)
Definition tolower (c : ascii) : ascii :=
  let n := nat_of_ascii c in
  if Nat.leb 65 n && Nat.leb n 90 then ascii_of_nat (n + 32) else c.

(** [s.lower()] *)
Fixpoint lower (s : string) : string :=
  match s with
  | EmptyString => EmptyString
  | String c t => String (tolower c) (lower t)
  end.

(** [s.lstrip()] *)
Fixpoint lstrip (s : string) : string :=
  match s with
  | EmptyString => EmptyString
  | String c t => if isspace c then lstrip t else s
  end.

(** [s.rstrip()]: a character is dropped when it is white space and
    everything after it has been dropped. *)
Fixpoint rstrip (s : string) : string :=
  match s with
  | EmptyString => EmptyString
  | String c t =>
      match rstrip t with
      | EmptyString => if isspace c then EmptyString else String c EmptyString
      | r => String c r
      end
  end.

(** [s.strip()] *)
Definition strip (s : string) : string := rstrip (lstrip s).

(** [s.split(" ", 1)]: cut at the first space, if there is one. *)
Fixpoint split_space1 (s : string) : list string :=
  match s with
  | EmptyString => [EmptyString]
  | String c t =>
      if Ascii.eqb c " " then [EmptyString; t]
      else match split_space1 t with
           | h :: r => String c h :: r
           | [] => [s]
           end
  end.

(** [bool(s)] for a byte string. *)
Definition truthy (s : string) : bool :=
  match s with EmptyString => false | _ => true end.

Fixpoint forallb (p : ascii -> bool) (s : string) : bool :=
  match s with
  | EmptyString => true
  | String c t => p c && forallb p t
  end.

(** *** Integer sequences and slices *)

(** [range(start, stop, step)] as a list; [None] stands for the
    [ValueError] of a zero step.  The number of elements is computed as
    CPython does. *)
Definition range (start stop step : Z) : option (list Z) :=
  if (step =? 0)%Z then None
  else
    let n :=
      if (0 <? step)%Z
      then (if (start <? stop)%Z then ((stop - start - 1) / step + 1)%Z else 0%Z)
      else (if (stop <? start)%Z then ((start - stop - 1) / (- step) + 1)%Z else 0%Z) in
    Some (map (fun k => (start + Z.of_nat k * step)%Z) (seq 0 (Z.to_nat n))).

(** A slice bound brought into [0 .. len], as [PySlice_AdjustIndices]
    does for a step of 1. *)
Definition adjust (len i : Z) : Z :=
  if (i <? 0)%Z then Z.max 0 (i + len) else Z.min i len.

Section Slices.
Context {A : Type}.

(** [l[i:j]] *)
Definition slice (l : list A) (i j : Z) : list A :=
  let n := Z.of_nat (List.length l) in
  let lo := adjust n i in
  let hi := adjust n j in
  firstn (Z.to_nat (hi - lo)) (skipn (Z.to_nat lo) l).

(** [l[i:]] *)
Definition slice_from (l : list A) (i : Z) : list A :=
  let n := Z.of_nat (List.length l) in
  skipn (Z.to_nat (adjust n i)) l.
End Slices.

End Py.

(** ** Regular expressions

    The fragment of [re] that the push pattern uses, matched by
    derivatives.  The pattern has no group reference and no look-around,
    so a backtracking search finds a match exactly when the matched
    prefix belongs to the language of the expression. *)

Module Re.

Inductive re : Type :=
| Void
| Eps
| Chr (p : ascii -> bool)
| Seq (a b : re)
| Alt (a b : re)
| Star (a : re).

(** [r?], [r+], [r{n}], [r{0,n}], [r{lo,hi}] and a literal. *)
Definition Opt (r : re) : re := Alt Eps r.
Definition Plus (r : re) : re := Seq r (Star r).

Fixpoint Times (n : nat) (r : re) : re :=
  match n with
  | O => Eps
  | S k => Seq r (Times k r)
  end.

Fixpoint UpTo (n : nat) (r : re) : re :=
  match n with
  | O => Eps
  | S k => Opt (Seq r (UpTo k r))
  end.

Definition Rep (lo hi : nat) (r : re) : re := Seq (Times lo r) (UpTo (hi - lo) r).

Fixpoint Lit (s : string) : re :=
  match s with
  | EmptyString => Eps
  | String c t => Seq (Chr (Ascii.eqb c)) (Lit t)
  end.

Fixpoint nullable (r : re) : bool :=
  match r with
  | Void => false
  | Eps => true
  | Chr _ => false
  | Seq a b => nullable a && nullable b
  | Alt a b => nullable a || nullable b
  | Star _ => true
  end.

Fixpoint deriv (c : ascii) (r : re) : re :=
  match r with
  | Void => Void
  | Eps => Void
  | Chr p => if p c then Eps else Void
  | Seq a b =>
      if nullable a then Alt (Seq (deriv c a) b) (deriv c b)
      else Seq (deriv c a) b
  | Alt a b => Alt (deriv c a) (deriv c b)
  | Star a => Seq (deriv c a) (Star a)
  end.

(** The whole of [s] is matched by [r]. *)
Fixpoint fullmatch (r : re) (s : string) : bool :=
  match s with
  | EmptyString => nullable r
  | String c t => fullmatch (deriv c r) t
  end.

(** [s] without its last character, when that is a newline. *)
Fixpoint chomp (s : string) : option string :=
  match s with
  | EmptyString => None
  | String c EmptyString => if Ascii.eqb c "010" then Some EmptyString else None
  | String c t => option_map (String c) (chomp t)
  end.

(** [re.match("^" r "$", s)] without flags: [^] is the start of [s],
    [$] is its end or the place before a newline that ends it. *)
Definition match_anchored (r : re) (s : string) : bool :=
  fullmatch r s ||
  match chomp s with
  | Some s' => fullmatch r s'
  | None => false
  end.

(** Character classes of a pattern without flags on a byte string. *)
Definition word (c : ascii) : bool :=
  let n := nat_of_ascii c in
  (Nat.leb 48 n && Nat.leb n 57) || (Nat.leb 65 n && Nat.leb n 90)
  || (Nat.leb 97 n && Nat.leb n 122) || Nat.eqb n 95.

Definition nonword (c : ascii) : bool := negb (word c).

Definition dot (c : ascii) : bool := negb (Ascii.eqb c "010").

(** Words of the language of an expression. *)
Inductive lang : re -> string -> Prop :=
| L_eps : lang Eps EmptyString
| L_chr p c : p c = true -> lang (Chr p) (String c EmptyString)
| L_seq a b s t : lang a s -> lang b t -> lang (Seq a b) (s ++ t)
| L_alt_l a b s : lang a s -> lang (Alt a b) s
| L_alt_r a b s : lang b s -> lang (Alt a b) s
| L_star_nil a : lang (Star a) EmptyString
| L_star_app a s t : lang a s -> lang (Star a) t -> lang (Star a) (s ++ t).

End Re.

(** ** The chat *)

Module PssstChat.

(** A transcript line is a byte string (intro and error lines) or
    decoded text (a chunk of a pulled message). *)
Inductive line : Type :=
| Bytes (s : string)
| Text (u : list N).

(** Exceptions, with their [str()]. *)
Inductive exn : Type :=
| Exception (msg : string)
| TypeError (msg : string)
| ValueError (msg : string)
| UnicodeDecodeError (msg : string)
| UnicodeEncodeError (msg : string)
| CursesError (msg : string).        (* curses.error *)

Definition str (e : exn) : string :=
  match e with
  | Exception m | TypeError m | ValueError m | UnicodeDecodeError m
  | UnicodeEncodeError m | CursesError m => m
  end.

(** Calls that leave the program, in the order they are made. *)
Inductive event : Type :=
| Push (receiver message : string)   (* self.pssst.push(receiver, message) *)
| Pull                               (* self.pssst.pull() *)
| WrapperBegin                       (* curses.wrapper enters curses mode *)
| WrapperEnd                         (* ... and leaves it when setup returns *)
| Noecho
| Cbreak
| Keypad
| UseDefaultColors
| InitPair
| Addstr (y x : Z) (l : line)
| Clrtoeol
| Getyx
| Move (y x : Z)
| MoveBack                           (* screen.move( *cursor) *)
| Refresh
| Clear
| Getstr
| Endwin
| Sleep
| Start                              (* self.thread.start() *)
| Join.                              (* self.thread.join() *)

(** The instance: its two mutable attributes, and the events so far
    (oldest first). *)
Record chat : Type := Chat {
  buffer : list line;
  halt : bool;
  trace : list event
}.

(** What [self.pssst.pull()] answers. *)
Inductive pulled : Type :=
| Pulled (messages : list string)
| PullFailed (cause : string).

(** [INTRO] *)
Definition INTRO : string :=
  "Type 'USERNAME ...' to send a message and 'exit' to exit.".

(** *** Statements: a result or an exception, and the instance after *)

Inductive res (A : Type) : Type :=
| Ok (a : A)
| Raise (e : exn).
Arguments Ok {A} a.
Arguments Raise {A} e.

Definition M (A : Type) : Type := chat -> res A * chat.

Definition ret {A} (a : A) : M A := fun s => (Ok a, s).

Definition raise {A} (e : exn) : M A := fun s => (Raise e, s).

Definition bind {A B} (m : M A) (k : A -> M B) : M B :=
  fun s =>
    match m s with
    | (Ok a, s') => k a s'
    | (Raise e, s') => (Raise e, s')
    end.

Notation "x <- m ;; k" := (bind m (fun x => k))
  (at level 61, m at next level, right associativity).
Notation "m ;; k" := (bind m (fun _ => k))
  (at level 61, right associativity).

Definition emit (e : event) : M unit :=
  fun s => (Ok tt, Chat (buffer s) (halt s) (trace s ++ [e])).

(** [self.buffer.append(l)] *)
Definition append (l : line) : M unit :=
  fun s => (Ok tt, Chat (buffer s ++ [l]) (halt s) (trace s)).

(** [self.buffer += ls] *)
Definition extend (ls : list line) : M unit :=
  fun s => (Ok tt, Chat (buffer s ++ ls) (halt s) (trace s)).

Definition set_halt (b : bool) : M unit :=
  fun s => (Ok tt, Chat (buffer s) b (trace s)).

Definition get_buffer : M (list line) := fun s => (Ok (buffer s), s).

Definition get_halt : M bool := fun s => (Ok (halt s), s).

(** ["Error: %s" % ex] *)
Definition error_line (cause : string) : line := Bytes ("Error: " ++ cause).

(** [bool(profile)]: false for [None] and for the empty tuple. *)
Definition given (profile : option (list string)) : bool :=
  match profile with
  | Some (_ :: _) => true
  | _ => false
  end.

(** [__init__]; [pssst] is what [Pssst( *profile)] does: it returns, or
    raises. *)
Definition init (profile : option (list string)) (pssst : option exn) : res chat :=
  if negb (given profile) then Raise (Exception "Profile required")
  else
    match pssst with
    | Some e => Raise e
    | None => Ok (Chat [Bytes INTRO; Bytes ""] false [])
    end.

(** [^(pssst\.)?\w{2,63}\W+.+$] *)
Definition push_re : Re.re :=
  Re.Seq (Re.Opt (Re.Lit "pssst."))
    (Re.Seq (Re.Rep 2 63 (Re.Chr Re.word))
       (Re.Seq (Re.Plus (Re.Chr Re.nonword)) (Re.Plus (Re.Chr Re.dot)))).

Definition push_command (line : string) : bool := Re.match_anchored push_re line.

(** [__pssst_push]; [outcome] is the cause of the failure of [push],
    if it fails. *)
Definition pssst_push (outcome : option string) (receiver message : string) : M unit :=
  emit (Push receiver message) ;;
  match outcome with
  | None => ret tt
  | Some ex => append (error_line ex)
  end.

(** [__pssst_pull]; falling off the [except] branch returns [None]. *)
Definition pssst_pull (outcome : pulled) : M (option (list string)) :=
  emit Pull ;;
  match outcome with
  | Pulled messages => ret (Some messages)
  | PullFailed ex => append (error_line ex) ;; ret None
  end.

(** [x or []] *)
Definition or_nil {A} (x : option (list A)) : list A :=
  match x with
  | Some l => l
  | None => []
  end.

(** [exit] *)
Definition exit : M unit :=
  set_halt true ;; emit Join ;; emit Clear ;; emit Refresh.

(** [title.ljust(width)] *)
Definition ljust (s : string) (width : Z) : string :=
  s ++ string_of_list_ascii (repeat " "%char (Z.to_nat (width - Py.len s))).

(** *** The screen

    What the screen answers to a call that curses checks: [None] when
    it takes the call, the exception that the call raises otherwise.
    curses refuses a position outside the window and a text that
    reaches the lower right corner, and Python 2 refuses a [unicode]
    text that is not ASCII.  The event records the call; where the
    text lands (a line longer than the screen is wide goes on in the
    rows below) is the affair of the screen. *)
Definition screen : Type := event -> option exn.

(** A screen that takes every call. *)
Definition accepting : screen := fun _ => None.

(** The number of characters of a line. *)
Definition line_len (l : line) : Z :=
  match l with
  | Bytes s => Py.len s
  | Text u => Z.of_nat (List.length u)
  end.

(** [str(l)] for the [s] argument of [addstr] succeeds: a [unicode]
    line is encoded with the default codec, ASCII. *)
Definition ascii_only (l : line) : bool :=
  match l with
  | Bytes _ => true
  | Text u => forallb (fun n => (n <? 128)%N) u
  end.

(** A screen of [rows] x [cols], for lines of printable characters:
    [addstr] refuses a line that is not ASCII, a position outside the
    screen and a line that runs from its position into the lower right
    corner; [move] refuses a position outside the screen; the other
    calls are taken. *)
Definition sized (rows cols : Z) : screen :=
  fun e =>
    let inside y x :=
      ((0 <=? y) && (y <? rows) && (0 <=? x) && (x <? cols))%Z in
    match e with
    | Addstr y x l =>
        if negb (ascii_only l)
        then Some (UnicodeEncodeError "ordinal not in range(128)")
        else if inside y x && (y * cols + x + line_len l <? rows * cols)%Z
        then None
        else Some (CursesError "addstr() returned ERR")
    | Move y x =>
        if inside y x then None else Some (CursesError "wmove() returned ERR")
    | _ => None
    end.

(** A call that the screen may refuse: it is made, and raises what
    the screen answers. *)
Definition call (scr : screen) (e : event) : M unit :=
  emit e ;;
  match scr e with
  | None => ret tt
  | Some ex => raise ex
  end.

(** How a loop stands when the answers of the outside run out. *)
Inductive loop : Type :=
| Returned    (* the loop was left *)
| Pending.    (* the next turn waits for an answer *)

(** *** Statements, one at a time

    The statements above as single steps: an access to the instance or
    a call to the outside.  A program is what is left to do; this is
    the grain at which the two threads alternate. *)

Inductive prim : Type -> Type :=
| Emit (e : event) : prim unit
| Call (e : event) : prim unit
| Append (l : line) : prim unit
| Extend (ls : list line) : prim unit
| SetHalt (b : bool) : prim unit
| GetBuffer : prim (list line)
| GetHalt : prim bool.

Inductive prog (A : Type) : Type :=
| Done (r : res A)
| Do (X : Type) (p : prim X) (k : X -> prog A).
Arguments Done {A} r.
Arguments Do {A} X p k.

(** One statement, alone. *)
Definition do {X} (p : prim X) : prog X := Do X p (fun x => Done (Ok x)).

Fixpoint bind_p {A B} (m : prog A) (f : A -> prog B) : prog B :=
  match m with
  | Done (Ok a) => f a
  | Done (Raise e) => Done (Raise e)
  | Do X p k => Do X p (fun x => bind_p (k x) f)
  end.

Notation "x <~ m ;; k" := (bind_p m (fun x => k))
  (at level 61, m at next level, right associativity).
Notation "m ~> k" := (bind_p m (fun _ => k))
  (at level 61, right associativity).

(** What one statement does. *)
Definition perform (scr : screen) {X} (p : prim X) : M X :=
  match p in prim X return M X with
  | Emit e => emit e
  | Call e => call scr e
  | Append l => append l
  | Extend ls => extend ls
  | SetHalt b => set_halt b
  | GetBuffer => get_buffer
  | GetHalt => get_halt
  end.

(** A program run without interruption. *)
Fixpoint denote (scr : screen) {A} (p : prog A) : M A :=
  match p with
  | Done r => fun c => (r, c)
  | Do X q k => bind (perform scr q) (fun x => denote scr (k x))
  end.

(** [__pssst_push], [__pssst_pull] and [exit], one statement at a
    time. *)
Definition pssst_push_p (outcome : option string) (receiver message : string)
  : prog unit :=
  do (Emit (Push receiver message)) ~>
  match outcome with
  | None => Done (Ok tt)
  | Some ex => do (Append (error_line ex))
  end.

Definition pssst_pull_p (outcome : pulled) : prog (option (list string)) :=
  do (Emit Pull) ~>
  match outcome with
  | Pulled messages => Done (Ok (Some messages))
  | PullFailed ex => do (Append (error_line ex)) ~> Done (Ok None)
  end.

Definition exit_p : prog unit :=
  do (SetHalt true) ~> do (Emit Join) ~> do (Emit Clear) ~> do (Emit Refresh).

Section Session.

(** What the outside answers once and for all: [screen.getmaxyx()],
    [repr(self.pssst.user)], the title, [bytes.decode("utf-8")] (the
    message of the [UnicodeDecodeError], or the code points) and the
    screen. *)
Variables height width : Z.
Variable user : string.
Variable title : string.
Variable decode : string -> string + list N.
Variable scr : screen.

(** [__enter__] *)
Definition enter : M unit :=
  emit WrapperBegin ;;
  emit Noecho ;; emit Cbreak ;; emit Keypad ;;
  emit UseDefaultColors ;; emit InitPair ;;
  emit (Addstr 0 0 (Bytes (ljust title width))) ;;
  emit WrapperEnd.

(** [__exit__] *)
Definition leave : M unit := emit Endwin.

(** [self.buffer[-(self.height - 2):]] *)
Definition window (buf : list line) : list line :=
  Py.slice_from buf (- (height - 2)).

(** [for y in range(len(window))]: the rows from [y] on.  [addstr] is
    a call that the screen may refuse. *)
Fixpoint draw (y : Z) (rows : list line) : M unit :=
  match rows with
  | [] => ret tt
  | l :: rest => call scr (Addstr (1 + y) 0 l) ;; emit Clrtoeol ;; draw (y + 1) rest
  end.

(** [__render] *)
Definition render : M unit :=
  emit Getyx ;;
  buf <- get_buffer ;;
  draw 0 (window buf) ;;
  emit MoveBack ;;
  emit Refresh.

(** The list comprehension of [__thread]:
    [[data[i:i + self.width] for i in range(0, len(data), self.width)]] *)
Definition chunks (data : list N) : option (list (list N)) :=
  match Py.range 0 (Z.of_nat (List.length data)) width with
  | None => None
  | Some starts => Some (map (fun i => Py.slice data i (i + width)) starts)
  end.

(** The body of [for data in ...]. *)
Definition wrap (data : string) : M unit :=
  match decode data with
  | inl msg => raise (UnicodeDecodeError msg)
  | inr text =>
      match chunks text with
      | None => raise (ValueError "range() step argument must not be zero")
      | Some cs => extend (map Text cs)
      end
  end.

Fixpoint wrap_all (messages : list string) : M unit :=
  match messages with
  | [] => ret tt
  | data :: rest => wrap data ;; wrap_all rest
  end.

(** One turn of the [while] loop of [__thread]. *)
Definition thread_body (outcome : pulled) : M unit :=
  r <- pssst_pull outcome ;;
  wrap_all (or_nil r) ;;
  render ;;
  emit Sleep.

(** [__thread], one answer of [pull] per turn. *)
Fixpoint thread (outcomes : list pulled) : M loop :=
  h <- get_halt ;;
  if h then ret Returned
  else
    match outcomes with
    | [] => ret Pending
    | o :: rest => thread_body o ;; thread rest
    end.

(** [__prompt]; [raw] is what [getstr()] returns.  [addstr] and [move]
    are calls that the screen may refuse. *)
Definition prompt (raw : string) : M string :=
  let p := user ++ "> " in
  let y := (height - 1)%Z in
  call scr (Addstr y 0 (Bytes p)) ;;
  call scr (Move y (Py.len p)) ;;
  emit Clrtoeol ;;
  emit Getstr ;;
  ret (Py.strip raw).

(** [self.__pssst_push( *line.split(" ", 1))] *)
Definition push_line (outcome : option string) (line : string) : M unit :=
  match Py.split_space1 line with
  | [receiver; message] => pssst_push outcome receiver message
  | _ => raise (TypeError "__pssst_push() takes exactly 3 arguments (2 given)")
  end.

(** One turn of the [while True] loop of [run]: [raw] is the line that
    is typed when the turn gets to [getstr()], and [outcome] what
    [push] does if the turn calls it. *)
Definition run_body (raw : string) (outcome : option string) : M loop :=
  render ;;
  line <- prompt raw ;;
  if negb (Py.truthy line) then ret Pending
  else if String.eqb (Py.lower line) "exit" then exit ;; ret Returned
  else if push_command line then push_line outcome line ;; ret Pending
  else append (Bytes "Error: Unknown command") ;; ret Pending.

Fixpoint run_loop (inputs : list (string * option string)) : M loop :=
  match inputs with
  | [] => ret Pending
  | (raw, outcome) :: rest =>
      l <- run_body raw outcome ;;
      match l with
      | Returned => ret Returned
      | Pending => run_loop rest
      end
  end.

(** [run] *)
Definition run (inputs : list (string * option string)) : M loop :=
  emit Start ;; run_loop inputs.

(** The last branch of [main]:
    [with PssstChat(CLI.profile(arg)) as chat: chat.run()], under
    [except Exception as ex: return "Error: %s" % ex].  The result is
    what [main] returns and the events of the whole call.  An
    interrupt from the keyboard is not among the answers of the
    outside, so the [except KeyboardInterrupt] branch is not taken. *)
Definition main_chat (profile : option (list string)) (pssst : option exn)
    (inputs : list (string * option string)) : option string * list event :=
  match init profile pssst with
  | Raise e => (Some ("Error: " ++ str e), [])
  | Ok c =>
      match (enter ;; run inputs) c with
      | (Ok _, c') => (None, trace (snd (leave c')))
      | (Raise e, c') => (Some ("Error: " ++ str e), trace (snd (leave c')))
      end
  end.

(** *** The same methods, one statement at a time *)

Fixpoint draw_p (y : Z) (rows : list line) : prog unit :=
  match rows with
  | [] => Done (Ok tt)
  | l :: rest =>
      do (Call (Addstr (1 + y) 0 l)) ~> do (Emit Clrtoeol) ~> draw_p (y + 1) rest
  end.

Definition render_p : prog unit :=
  do (Emit Getyx) ~>
  buf <~ do GetBuffer ;;
  draw_p 0 (window buf) ~>
  do (Emit MoveBack) ~>
  do (Emit Refresh).

Definition wrap_p (data : string) : prog unit :=
  match decode data with
  | inl msg => Done (Raise (UnicodeDecodeError msg))
  | inr text =>
      match chunks text with
      | None => Done (Raise (ValueError "range() step argument must not be zero"))
      | Some cs => do (Extend (map Text cs))
      end
  end.

Fixpoint wrap_all_p (messages : list string) : prog unit :=
  match messages with
  | [] => Done (Ok tt)
  | data :: rest => wrap_p data ~> wrap_all_p rest
  end.

Definition thread_body_p (outcome : pulled) : prog unit :=
  r <~ pssst_pull_p outcome ;;
  wrap_all_p (or_nil r) ~>
  render_p ~>
  do (Emit Sleep).

Fixpoint thread_p (outcomes : list pulled) : prog loop :=
  h <~ do GetHalt ;;
  if h then Done (Ok Returned)
  else
    match outcomes with
    | [] => Done (Ok Pending)
    | o :: rest => thread_body_p o ~> thread_p rest
    end.

Definition prompt_p (raw : string) : prog string :=
  let p := user ++ "> " in
  let y := (height - 1)%Z in
  do (Call (Addstr y 0 (Bytes p))) ~>
  do (Call (Move y (Py.len p))) ~>
  do (Emit Clrtoeol) ~>
  do (Emit Getstr) ~>
  Done (Ok (Py.strip raw)).

Definition push_line_p (outcome : option string) (line : string) : prog unit :=
  match Py.split_space1 line with
  | [receiver; message] => pssst_push_p outcome receiver message
  | _ => Done (Raise (TypeError "__pssst_push() takes exactly 3 arguments (2 given)"))
  end.

Definition run_body_p (raw : string) (outcome : option string) : prog loop :=
  render_p ~>
  line <~ prompt_p raw ;;
  if negb (Py.truthy line) then Done (Ok Pending)
  else if String.eqb (Py.lower line) "exit" then exit_p ~> Done (Ok Returned)
  else if push_command line then push_line_p outcome line ~> Done (Ok Pending)
  else do (Append (Bytes "Error: Unknown command")) ~> Done (Ok Pending).

Fixpoint run_loop_p (inputs : list (string * option string)) : prog loop :=
  match inputs with
  | [] => Done (Ok Pending)
  | (raw, outcome) :: rest =>
      l <~ run_body_p raw outcome ;;
      match l with
      | Returned => Done (Ok Returned)
      | Pending => run_loop_p rest
      end
  end.

(** *** The two threads together

    Each thread has a program left to run; a step is one statement of
    one of them.  The foreground runs the loop of [run], the
    background the loop of [__thread].  [join] is the one statement
    that waits: the foreground does not get past it while the
    background thread has not ended. *)

Inductive side : Type :=
| Fg    (* the thread of [run] *)
| Bg.   (* the thread of [__thread] *)

Record system : Type := System {
  self : chat;
  foreground : prog loop;
  background : prog loop
}.

(** The thread has ended: its loop has returned, or an exception has
    left it. *)
Definition ended (p : prog loop) : bool :=
  match p with
  | Done (Ok Returned) | Done (Raise _) => true
  | _ => false
  end.

Definition is_join {X} (p : prim X) : bool :=
  match p with
  | Emit Join => true
  | _ => false
  end.

(** The next statement of a program, on the instance. *)
Definition advance {A} (p : prog A) (c : chat) : prog A * chat :=
  match p with
  | Done r => (p, c)
  | Do X q k =>
      match perform scr q c with
      | (Ok x, c') => (k x, c')
      | (Raise e, c') => (Done (Raise e), c')
      end
  end.

Definition waits (s : system) : bool :=
  match foreground s with
  | Do X q k => is_join q && negb (ended (background s))
  | Done _ => false
  end.

Definition step (a : side) (s : system) : system :=
  match a with
  | Fg =>
      if waits s then s
      else
        let (p, c) := advance (foreground s) (self s) in
        System c p (background s)
  | Bg =>
      let (p, c) := advance (background s) (self s) in
      System c (foreground s) p
  end.

Definition steps (schedule : list side) (s : system) : system :=
  fold_left (fun s a => step a s) schedule s.

(** The system when [run] has started the background thread: what is
    typed and what [pull] answers are fixed in advance. *)
Definition started (inputs : list (string * option string))
    (outcomes : list pulled) (c : chat) : system :=
  System (snd (emit Start c)) (run_loop_p inputs) (thread_p outcomes).

End Session.

End PssstChat.

(** ** The push pattern in words, and what a trace shows *)

Module Shape.

(** An optional literal [pssst.]. *)
Definition prefix (pre : string) : Prop := pre = "" \/ pre = "pssst.".

(** 2 to 63 word characters. *)
Definition token (tok : string) : Prop :=
  2 <= String.length tok <= 63 /\ Py.forallb Re.word tok = true.

(** One or more non-word characters. *)
Definition separator (sep : string) : Prop :=
  1 <= String.length sep /\ Py.forallb Re.nonword sep = true.

(** The remaining text: one or more characters, none a newline. *)
Definition remainder (rest : string) : Prop :=
  1 <= String.length rest /\ Py.forallb Re.dot rest = true.

(** [line] reads as receiver, separator, message. *)
Definition command (line receiver message : string) : Prop :=
  exists pre tok sep,
    receiver = pre ++ tok /\ line = receiver ++ sep ++ message /\
    prefix pre /\ token tok /\ separator sep /\ remainder message.

Definition matches (line : string) : Prop :=
  exists receiver message, command line receiver message.

(** [c] does not occur in [s]. *)
Definition lacks (c : ascii) (s : string) : Prop :=
  Py.forallb (fun d => negb (Ascii.eqb d c)) s = true.

End Shape.

Module Obs.

Import PssstChat.

(** The [push] calls of a trace, oldest first. *)
Fixpoint pushes (t : list event) : list (string * string) :=
  match t with
  | [] => []
  | Push r m :: rest => (r, m) :: pushes rest
  | _ :: rest => pushes rest
  end.

(** The events of [draw], [__render] and [__prompt]. *)
Fixpoint draw_events (y : Z) (rows : list line) : list event :=
  match rows with
  | [] => []
  | l :: rest => Addstr (1 + y) 0 l :: Clrtoeol :: draw_events (y + 1) rest
  end.

Definition render_events (height : Z) (buf : list line) : list event :=
  Getyx :: draw_events 0 (window height buf) ++ [MoveBack; Refresh].

Definition prompt_events (height : Z) (user : string) : list event :=
  [Addstr (height - 1) 0 (Bytes (user ++ "> "));
   Move (height - 1) (Py.len (user ++ "> ")); Clrtoeol; Getstr].

(** The screen takes each of these calls. *)
Definition takes (scr : screen) (calls : list event) : bool :=
  forallb (fun e => match scr e with
                    | None => true
                    | Some _ => false
                    end) calls.

(** The events that change the mode of the terminal. *)
Definition mode_change (e : event) : bool :=
  match e with
  | WrapperBegin | WrapperEnd | Noecho | Cbreak | Keypad | Endwin => true
  | _ => false
  end.

(** [ceil(l / w)] for [w > 0]. *)
Definition ceil_div (l w : Z) : Z := ((l + w - 1) / w)%Z.

(** The [k]-th piece of width [w] of a list. *)
Definition piece {A} (w : nat) (data : list A) (k : nat) : list A :=
  firstn w (skipn (k * w) data).

(** The instance right after a construction that succeeds. *)
Definition fresh : chat := Chat [Bytes INTRO; Bytes ""%string] false [].

(** A statement that only adds: it never lowers [halt], and the
    transcript and the trace before it are a prefix of those after. *)
Definition grows {A} (m : M A) : Prop :=
  forall c,
    (halt c = true -> halt (snd (m c)) = true) /\
    (exists b, buffer (snd (m c)) = (buffer c ++ b)%list) /\
    (exists t, trace (snd (m c)) = (trace c ++ t)%list).

(** A statement that, moreover, leaves [halt] as it is. *)
Definition steady {A} (m : M A) : Prop :=
  forall c,
    halt (snd (m c)) = halt c /\
    (exists b, buffer (snd (m c)) = (buffer c ++ b)%list) /\
    (exists t, trace (snd (m c)) = (trace c ++ t)%list).

(** The last [n] elements of [l], all of them when there are fewer. *)
Definition last_n {A} (n : nat) (l : list A) : list A :=
  skipn (List.length l - n) l.

End Obs.

(** ** The command line *)

Module Cli.

Import PssstChat.

(** [__version__] *)
Definition version : string := "0.2.1".

(** [__repr__], which is also the text of [-v]:
    ["Pssst Chat " + __version__] *)
Definition repr : string := "Pssst Chat " ++ version.

Definition nl : string := String "010" "".

(** ["\n".join(lines)] *)
Fixpoint join_lines (ls : list string) : string :=
  match ls with
  | [] => ""
  | [l] => l
  | l :: rest => l ++ nl ++ join_lines rest
  end.

(** [s.split("\n")] *)
Fixpoint split_lines (s : string) : list string :=
  match s with
  | EmptyString => [EmptyString]
  | String c t =>
      if Ascii.eqb c "010" then EmptyString :: split_lines t
      else match split_lines t with
           | h :: r => String c h :: r
           | [] => [s]
           end
  end.

(** The docstring of the module, line by line. *)
Definition module_doc : string :=
  join_lines
    [ "";
      "Copyright (C) 2016  Christian Uhsat <christian@uhsat.de>";
      "";
      "This program is free software: you can redistribute it and/or modify";
      "it under the terms of the GNU General Public License as published by";
      "the Free Software Foundation, either version 3 of the License, or";
      "(at your option) any later version.";
      "";
      "This program is distributed in the hope that it will be useful,";
      "but WITHOUT ANY WARRANTY; without even the implied warranty of";
      "MERCHANTABILITY or FITNESS FOR A PARTICULAR PURPOSE. See the";
      "GNU General Public License for more details.";
      "";
      "You should have received a copy of the GNU General Public License";
      "along with this program. If not, see <http://www.gnu.org/licenses/>.";
      "" ].

(** The docstring of [main], line by line. *)
Definition main_doc : string :=
  join_lines
    [ "";
      "    Usage: %s [option|username|-]";
      "";
      "    Options:";
      "      -h, --help      Shows the usage";
      "      -l, --license   Shows the license";
      "      -v, --version   Shows the version";
      "";
      "    Report bugs to <christian@uhsat.de>";
      "    " ].

(** [doc % s] for a [doc] with the one directive [%s]. *)
Fixpoint format_s (doc s : string) : string :=
  match doc with
  | EmptyString => EmptyString
  | String c rest =>
      match rest with
      | String d rest' =>
          if Ascii.eqb c "%" && Ascii.eqb d "s" then s ++ rest'
          else String c (format_s rest s)
      | EmptyString => doc
      end
  end.

(** One line without its first four characters when they are spaces. *)
Definition drop_indent (l : string) : string :=
  match l with
  | String " " (String " " (String " " (String " " r))) => r
  | _ => l
  end.

(** [re.sub("(?m)^ {4}", "", text)]: [^] is the start of the text and
    the place after each newline. *)
Definition dedent (text : string) : string :=
  join_lines (map drop_indent (split_lines text)).

Fixpoint has_slash (p : string) : bool :=
  match p with
  | EmptyString => false
  | String c t => Ascii.eqb c "/" || has_slash t
  end.

(** [os.path.basename(p)]: what follows the last slash. *)
Fixpoint basename (p : string) : string :=
  match p with
  | EmptyString => EmptyString
  | String c t =>
      if has_slash t then basename t
      else if Ascii.eqb c "/" then t
      else p
  end.

(** The text of [-h], for a script already reduced to its base name. *)
Definition usage (script : string) : string :=
  Py.strip (dedent (format_s main_doc script)).

(** The text of [-l]. *)
Definition license : string := Py.strip module_doc.

(** [arg in options] *)
Definition among (arg : string) (options : list string) : bool :=
  existsb (String.eqb arg) options.

(** What a call of [main] leaves: the texts printed, the value
    returned and the events. *)
Record report : Type := Report {
  printed : list string;
  returned : option string;
  events : list event
}.

(** [main( *sys.argv)]: [script] is [sys.argv[0]] and [args] the rest
    of [sys.argv]; [profile_of] is what [CLI.profile] answers, a
    profile or an exception.  In [sys.argv] no argument is [None]. *)
Definition main (height width : Z) (user title : string) (scr : screen)
    (script : string) (args : list string)
    (profile_of : string -> exn + option (list string))
    (pssst : option exn) (inputs : list (string * option string)) : report :=
  let script := basename script in
  let arg := match args with
             | [] => "--help"
             | a :: _ => a
             end in
  if among arg ["/?"; "-h"; "--help"] then Report [usage script] None []
  else if among arg ["-l"; "--license"] then Report [license] None []
  else if among arg ["-v"; "--version"] then Report [repr] None []
  else
    match profile_of arg with
    | inl e => Report [] (Some ("Error: " ++ str e)) []
    | inr profile =>
        let (r, t) := main_chat height width user title scr profile pssst inputs in
        Report [] r t
    end.

End Cli.

(** ** What a state shows *)

Module Views.

Import PssstChat.

(** The length of the run of word characters that starts a line. *)
Fixpoint word_run (s : string) : nat :=
  match s with
  | EmptyString => 0
  | String c t => if Re.word c then S (word_run t) else 0
  end.

(** The rows written by [addstr], with their lines, oldest first. *)
Fixpoint drawn (t : list event) : list (Z * line) :=
  match t with
  | [] => []
  | Addstr y _ l :: rest => (y, l) :: drawn rest
  | _ :: rest => drawn rest
  end.

(** Row [1 + i] for the [i]-th line, from row [1 + y] on. *)
Fixpoint on_rows (y : Z) (rows : list line) : list (Z * line) :=
  match rows with
  | [] => []
  | l :: rest => ((1 + y)%Z, l) :: on_rows (y + 1) rest
  end.

(** A chunk of a message is not empty and not wider than the screen;
    the other lines are not wrapped. *)
Definition fits (width : Z) (l : line) : Prop :=
  match l with
  | Text u => (1 <= Z.of_nat (List.length u) <= width)%Z
  | Bytes _ => True
  end.

(** [data.decode("utf-8")] for each message, when each succeeds. *)
Fixpoint decode_all (decode : string -> string + list N) (messages : list string)
  : option (list (list N)) :=
  match messages with
  | [] => Some []
  | data :: rest =>
      match decode data, decode_all decode rest with
      | inr text, Some texts => Some (text :: texts)
      | _, _ => None
      end
  end.

(** The chunks of each text, when the width is not zero. *)
Fixpoint chunks_all (width : Z) (texts : list (list N)) : option (list (list (list N))) :=
  match texts with
  | [] => Some []
  | text :: rest =>
      match chunks width text, chunks_all width rest with
      | Some cs, Some css => Some (cs :: css)
      | _, _ => None
      end
  end.

(** A step of the background thread. *)
Definition is_bg (a : side) : bool :=
  match a with
  | Bg => true
  | Fg => false
  end.

(** Every statement of a program has the property [Q]. *)
Fixpoint all_prims {A} (Q : forall X, prim X -> Prop) (p : prog A) : Prop :=
  match p with
  | Done _ => True
  | Do X q k => Q X q /\ forall x, all_prims Q (k x)
  end.

(** A statement that, if it writes [halt], writes [True]. *)
Definition writes_true (X : Type) (q : prim X) : Prop :=
  match q with
  | SetHalt b => b = true
  | _ => True
  end.

(** A statement that does not write [halt]. *)
Definition no_write (X : Type) (q : prim X) : Prop :=
  match q with
  | SetHalt _ => False
  | _ => True
  end.

(** A statement that adds to the transcript only lines with the
    property [P]. *)
Definition adds (P : line -> Prop) (X : Type) (q : prim X) : Prop :=
  match q with
  | Append l => P l
  | Extend ls => Forall P ls
  | _ => True
  end.

(** The statement [self.halt = True]. *)
Definition sets_halt (X : Type) (q : prim X) : bool :=
  match q with
  | SetHalt true => true
  | _ => false
  end.



(** The two threads write [halt] as the source does: the foreground
    writes [True] only, the background does not write it. *)
Definition lawful (s : system) : Prop :=
  all_prims writes_true (foreground s) /\ all_prims no_write (background s).


(** The transcript holds, and the two threads add, only lines that
    fit the width. *)
Definition fitting (width : Z) (s : system) : Prop :=
  all_prims (adds (fits width)) (foreground s) /\
  all_prims (adds (fits width)) (background s) /\
  Forall (fits width) (buffer (self s)).

(** A statement that only talks to the screen: the transcript and
    [halt] are as before, and the calls it adds are no [push]. *)
Definition draws {A} (m : M A) : Prop :=
  forall c,
    buffer (snd (m c)) = buffer c /\
    halt (snd (m c)) = halt c /\
    exists t, trace (snd (m c)) = (trace c ++ t)%list /\ Obs.pushes t = [].

(** What a turn of [run] does with the line that [__prompt]
    returned. *)
Definition on_line (outcome : option string) (line : string) : M loop :=
  if negb (Py.truthy line) then ret Pending
  else if String.eqb (Py.lower line) "exit" then exit ;; ret Returned
  else if push_command line then push_line outcome line ;; ret Pending
  else append (Bytes "Error: Unknown command") ;; ret Pending.

End Views.

(** ** Facts on byte strings *)

Module PyFacts.

Lemma append_nil_r (s : string) : s ++ "" = s.
Proof. induction s as [|c s IH]; simpl; [reflexivity | now rewrite IH]. Qed.

Lemma append_assoc (s t u : string) : (s ++ t) ++ u = s ++ t ++ u.
Proof. induction s as [|c s IH]; simpl; [reflexivity | now rewrite IH]. Qed.

Lemma length_append (s t : string) :
  String.length (s ++ t) = String.length s + String.length t.
Proof. induction s as [|c s IH]; simpl; [reflexivity | now rewrite IH]. Qed.

Lemma append_eq_nil (s t : string) : s ++ t = "" -> s = "" /\ t = "".
Proof. destruct s; simpl; [auto | discriminate]. Qed.

Lemma forallb_append p (s t : string) :
  Py.forallb p (s ++ t) = Py.forallb p s && Py.forallb p t.
Proof.
  induction s as [|c s IH]; simpl; [reflexivity|].
  now rewrite IH, andb_assoc.
Qed.

Lemma length_zero (s : string) : String.length s = 0 -> s = "".
Proof. destruct s; simpl; [reflexivity | discriminate]. Qed.

(** A stripped string does not end with a newline. *)
Lemma chomp_rstrip (s : string) : Re.chomp (Py.rstrip s) = None.
Proof.
  induction s as [|c s IH]; simpl; [reflexivity|].
  destruct (Py.rstrip s) as [|d r] eqn:E.
  - destruct (Py.isspace c) eqn:Hc; simpl; [reflexivity|].
    destruct (Ascii.eqb_spec c "010") as [->|_]; [discriminate Hc | reflexivity].
  - change (Re.chomp (String c (String d r)))
      with (option_map (String c) (Re.chomp (String d r))).
    now rewrite IH.
Qed.

Lemma chomp_strip (s : string) : Re.chomp (Py.strip s) = None.
Proof. apply chomp_rstrip. Qed.

Lemma append_newline_nonempty (t : string) : t ++ String "010" "" <> "".
Proof. destruct t; discriminate. Qed.

Lemma chomp_some (s t : string) :
  Re.chomp s = Some t <-> s = t ++ String "010" "".
Proof.
  revert t; induction s as [|c s IH]; intros t.
  - split; [discriminate|]. intros H. symmetry in H.
    now apply append_newline_nonempty in H.
  - destruct s as [|d r].
    + simpl. destruct (Ascii.eqb_spec c "010") as [->|Hc].
      * split.
        -- intros [= <-]. reflexivity.
        -- destruct t as [|e t]; simpl; [reflexivity|].
           intros [= _ H]. symmetry in H.
           now apply append_newline_nonempty in H.
      * split; [discriminate|].
        destruct t as [|e t]; simpl.
        -- intros [= H]. now elim Hc.
        -- intros [= _ H]. symmetry in H.
           now apply append_newline_nonempty in H.
    + change (Re.chomp (String c (String d r)))
        with (option_map (String c) (Re.chomp (String d r))).
      split.
      * destruct (Re.chomp (String d r)) as [u|] eqn:E; simpl; [|discriminate].
        intros [= <-]. pose proof (proj1 (IH u) eq_refl) as E'.
        simpl. now rewrite <- E'.
      * destruct t as [|e t]; cbn [append]; [discriminate|].
        intros [= -> H]. apply IH in H. now rewrite H.
Qed.

End PyFacts.

(** ** Facts on the matcher *)

Module ReFacts.

Import Re PyFacts.

Ltac inv H := inversion H; subst; clear H.

Lemma lang_seq a b s :
  lang (Seq a b) s <-> exists s1 s2, s = s1 ++ s2 /\ lang a s1 /\ lang b s2.
Proof.
  split.
  - intros H; inv H. eauto.
  - intros (s1 & s2 & -> & Ha & Hb). now constructor.
Qed.

Lemma lang_alt a b s : lang (Alt a b) s <-> lang a s \/ lang b s.
Proof.
  split.
  - intros H; inv H; auto.
  - intros [H|H]; [now apply L_alt_l | now apply L_alt_r].
Qed.

Lemma lang_eps s : lang Eps s <-> s = "".
Proof. split; [intros H; now inv H | intros ->; constructor]. Qed.

Lemma lang_chr p s : lang (Chr p) s <-> exists c, s = String c "" /\ p c = true.
Proof.
  split.
  - intros H; inv H. eauto.
  - intros (c & -> & Hc). now constructor.
Qed.

Lemma lang_opt r s : lang (Opt r) s <-> s = "" \/ lang r s.
Proof. unfold Opt. now rewrite lang_alt, lang_eps. Qed.

Lemma nullable_lang r : nullable r = true <-> lang r "".
Proof.
  induction r as [| |p|a IHa b IHb|a IHa b IHb|a IHa]; simpl.
  - split; [discriminate | intros H; inv H].
  - split; [constructor | reflexivity].
  - split; [discriminate | intros H; inv H].
  - rewrite andb_true_iff, IHa, IHb, lang_seq. split.
    + intros [Ha Hb]. exists "", "". auto.
    + intros (s1 & s2 & E & Ha & Hb). symmetry in E.
      apply append_eq_nil in E as [-> ->]. auto.
  - now rewrite orb_true_iff, IHa, IHb, lang_alt.
  - split; [constructor | reflexivity].
Qed.

(** A non-empty word of [a*] starts with a non-empty word of [a]. *)
Lemma star_cons a c s :
  lang (Star a) (String c s) ->
  exists s1 s2, s = s1 ++ s2 /\ lang a (String c s1) /\ lang (Star a) s2.
Proof.
  intros H. remember (Star a) as r eqn:Er. remember (String c s) as w eqn:Ew.
  revert c s Ew. induction H as [| | | | | |a' s1 s2 H1 _ H2 IH2]; try discriminate.
  injection Er as ->. intros c s Ew.
  destruct s1 as [|d s1]; simpl in Ew.
  - now apply IH2.
  - injection Ew as -> <-. eauto.
Qed.

Lemma deriv_lang c r : forall s, lang (deriv c r) s <-> lang r (String c s).
Proof.
  induction r as [| |p|a IHa b IHb|a IHa b IHb|a IHa]; intros s; simpl.
  - split; intros H; inv H.
  - split; intros H; inv H.
  - destruct (p c) eqn:Hp.
    + rewrite lang_eps. split.
      * intros ->. now constructor.
      * intros H; now inv H.
    + split; intros H; inv H. congruence.
  - assert (lang (Seq (deriv c a) b) s <->
            exists s1 s2, s = s1 ++ s2 /\ lang a (String c s1) /\ lang b s2) as Hl.
    { rewrite lang_seq. split; intros (s1 & s2 & E & Ha & Hb);
        exists s1, s2; repeat split; auto; now apply IHa. }
    rewrite (lang_seq a b). destruct (nullable a) eqn:Hn.
    + rewrite lang_alt, Hl, IHb. split.
      * intros [(s1 & s2 & -> & Ha & Hb) | Hb].
        -- exists (String c s1), s2. auto.
        -- apply nullable_lang in Hn. exists "", (String c s). auto.
      * intros (s1 & s2 & E & Ha & Hb). destruct s1 as [|d s1]; simpl in E.
        -- subst s2. now right.
        -- injection E as <- ->. left. eauto.
    + rewrite Hl. split.
      * intros (s1 & s2 & -> & Ha & Hb). exists (String c s1), s2. auto.
      * intros (s1 & s2 & E & Ha & Hb). destruct s1 as [|d s1]; simpl in E.
        -- apply nullable_lang in Ha. congruence.
        -- injection E as <- ->. eauto.
  - now rewrite !lang_alt, IHa, IHb.
  - rewrite lang_seq. split.
    + intros (s1 & s2 & -> & Ha & Hs). apply IHa in Ha.
      change (String c (s1 ++ s2)) with (String c s1 ++ s2). now constructor.
    + intros H. apply star_cons in H as (s1 & s2 & -> & Ha & Hs).
      exists s1, s2. repeat split; auto. now apply IHa.
Qed.

(** The matcher decides the language. *)
Lemma fullmatch_lang s : forall r, fullmatch r s = true <-> lang r s.
Proof.
  induction s as [|c s IH]; intros r; simpl.
  - apply nullable_lang.
  - now rewrite IH, deriv_lang.
Qed.

Lemma lang_lit l s : lang (Lit l) s <-> s = l.
Proof.
  revert s; induction l as [|c l IH]; intros s; simpl.
  - apply lang_eps.
  - rewrite lang_seq. split.
    + intros (s1 & s2 & -> & H1 & H2). apply lang_chr in H1 as (d & -> & Hd).
      apply IH in H2 as ->. apply Ascii.eqb_eq in Hd as ->. reflexivity.
    + intros ->. exists (String c ""), l. repeat split.
      * constructor. apply Ascii.eqb_refl.
      * now apply IH.
Qed.

Lemma lang_star_chr p s : lang (Star (Chr p)) s <-> Py.forallb p s = true.
Proof.
  split.
  - intros H. remember (Star (Chr p)) as r eqn:Er.
    induction H as [| | | | | |a s1 s2 H1 _ H2 IH2]; try discriminate.
    + reflexivity.
    + injection Er as ->. apply lang_chr in H1 as (c & -> & Hc).
      simpl. now rewrite Hc, IH2.
  - induction s as [|c s IH]; simpl.
    + constructor.
    + intros H. apply andb_true_iff in H as [Hc Hs].
      change (String c s) with (String c "" ++ s).
      constructor; [now constructor | auto].
Qed.

Lemma lang_plus_chr p s :
  lang (Plus (Chr p)) s <-> 1 <= String.length s /\ Py.forallb p s = true.
Proof.
  unfold Plus. rewrite lang_seq. split.
  - intros (s1 & s2 & -> & H1 & H2). apply lang_chr in H1 as (c & -> & Hc).
    apply lang_star_chr in H2. simpl. rewrite Hc, H2. split; [lia | reflexivity].
  - intros [Hl Hp]. destruct s as [|c s]; simpl in *; [lia|].
    apply andb_true_iff in Hp as [Hc Hs].
    exists (String c ""), s. repeat split.
    + now constructor.
    + now apply lang_star_chr.
Qed.

Lemma lang_times_chr p n : forall s,
  lang (Times n (Chr p)) s <-> String.length s = n /\ Py.forallb p s = true.
Proof.
  induction n as [|n IH]; intros s; simpl.
  - rewrite lang_eps. split.
    + intros ->. auto.
    + intros [H _]. now apply length_zero.
  - rewrite lang_seq. split.
    + intros (s1 & s2 & -> & H1 & H2). apply lang_chr in H1 as (c & -> & Hc).
      apply IH in H2 as [<- H2]. simpl. now rewrite Hc, H2.
    + intros [Hl Hp]. destruct s as [|c s]; simpl in *; [discriminate|].
      apply andb_true_iff in Hp as [Hc Hs]. injection Hl as Hl.
      exists (String c ""), s. repeat split.
      * now constructor.
      * now apply IH.
Qed.

Lemma lang_upto_chr p n : forall s,
  lang (UpTo n (Chr p)) s <-> String.length s <= n /\ Py.forallb p s = true.
Proof.
  induction n as [|n IH]; intros s; simpl.
  - rewrite lang_eps. split.
    + intros ->. auto.
    + intros [H _]. apply length_zero. lia.
  - rewrite lang_opt, lang_seq. split.
    + intros [->|(s1 & s2 & -> & H1 & H2)].
      * simpl. split; [lia | reflexivity].
      * apply lang_chr in H1 as (c & -> & Hc).
        apply IH in H2 as [Hl H2]. simpl. rewrite Hc, H2. split; [lia | reflexivity].
    + intros [Hl Hp]. destruct s as [|c s]; simpl in *; [now left|].
      apply andb_true_iff in Hp as [Hc Hs]. right.
      exists (String c ""), s. repeat split.
      * now constructor.
      * apply IH. split; [lia | assumption].
Qed.

Lemma lang_rep_chr p lo hi s :
  lo <= hi ->
  lang (Rep lo hi (Chr p)) s <->
  lo <= String.length s <= hi /\ Py.forallb p s = true.
Proof.
  intros Hle. unfold Rep. rewrite lang_seq. split.
  - intros (s1 & s2 & -> & H1 & H2).
    apply lang_times_chr in H1 as [<- H1]. apply lang_upto_chr in H2 as [Hl H2].
    rewrite length_append, forallb_append, H1, H2. split; [lia | reflexivity].
  - revert s. induction lo as [|lo IH] using nat_ind; intros s [Hl Hp].
    + exists "", s. repeat split.
      * now apply lang_times_chr.
      * apply lang_upto_chr. split; [lia | assumption].
    + destruct hi as [|hi]; [lia|]. destruct s as [|c s]; simpl in *; [lia|].
      apply andb_true_iff in Hp as [Hc Hs].
      assert (lang (Times lo (Chr p)) (substring 0 lo s) /\
              lang (UpTo (hi - lo) (Chr p))
                (substring lo (String.length s - lo) s) /\
              s = substring 0 lo s ++ substring lo (String.length s - lo) s)
        as (H1 & H2 & E).
      { clear IH. assert (lo <= String.length s) as Hlo by lia.
        assert (String.length s - lo <= hi - lo) as Hhi by lia.
        clear Hl Hle Hc. revert s Hs Hlo Hhi.
        generalize (hi - lo) as k.
        induction lo as [|lo IHlo]; intros k s Hs Hlo Hhi.
        - replace (substring 0 0 s) with "" by (destruct s; reflexivity).
          rewrite Nat.sub_0_r.
          assert (substring 0 (String.length s) s = s) as ->.
          { clear. induction s as [|c s IH]; simpl; [reflexivity | now rewrite IH]. }
          repeat split.
          + constructor.
          + apply lang_upto_chr. split; [lia | assumption].
        - destruct s as [|d s]; simpl in *; [lia|].
          apply andb_true_iff in Hs as [Hd Hs].
          destruct (IHlo k s Hs ltac:(lia) ltac:(lia)) as (H1 & H2 & E).
          repeat split.
          + change (String d (substring 0 lo s))
              with (String d "" ++ substring 0 lo s).
            constructor; [now constructor | assumption].
          + assumption.
          + now rewrite <- E. }
      exists (String c (substring 0 lo s)), (substring lo (String.length s - lo) s).
      repeat split.
      * simpl. now rewrite <- E.
      * simpl. change (String c (substring 0 lo s))
          with (String c "" ++ substring 0 lo s).
        constructor; [now constructor | assumption].
      * assumption.
Qed.

End ReFacts.

(** ** The push pattern *)

Module PatternFacts.

Import Re PyFacts ReFacts PssstChat.

(** The expression of [run] denotes the pattern as the words describe
    it. *)
Lemma push_re_lang (line : string) : lang push_re line <-> Shape.matches line.
Proof.
  unfold push_re, Shape.matches, Shape.command.
  rewrite lang_seq. split.
  - intros (pre & r1 & -> & Hpre & H1).
    apply lang_opt in Hpre. rewrite lang_lit in Hpre.
    apply lang_seq in H1 as (tok & r2 & -> & Htok & H2).
    apply lang_rep_chr in Htok; [|lia].
    apply lang_seq in H2 as (sep & msg & -> & Hsep & Hmsg).
    apply lang_plus_chr in Hsep. apply lang_plus_chr in Hmsg.
    exists (pre ++ tok), msg, pre, tok, sep.
    rewrite append_assoc.
    unfold Shape.prefix, Shape.token, Shape.separator, Shape.remainder.
    tauto.
  - intros (receiver & msg & pre & tok & sep & -> & -> & Hpre & Htok & Hsep & Hmsg).
    exists pre, (tok ++ sep ++ msg). rewrite append_assoc. repeat split.
    + apply lang_opt. rewrite lang_lit. exact Hpre.
    + apply lang_seq. exists tok, (sep ++ msg). repeat split.
      * apply lang_rep_chr; [lia | exact Htok].
      * apply lang_seq. exists sep, msg. repeat split; now apply lang_plus_chr.
Qed.

(** [re.match] accepts the lines of that shape, and those lines
    followed by one newline. *)
Lemma push_command_spec (line : string) :
  push_command line = true <->
  Shape.matches line \/
  exists body, line = body ++ String "010" "" /\ Shape.matches body.
Proof.
  unfold push_command, match_anchored.
  rewrite orb_true_iff, fullmatch_lang, push_re_lang.
  split; (intros [H|H]; [now left | right]).
  - destruct (chomp line) as [body|] eqn:E; [|discriminate].
    apply chomp_some in E. apply fullmatch_lang, push_re_lang in H. eauto.
  - destruct H as (body & E & H). apply chomp_some in E. rewrite E.
    now apply fullmatch_lang, push_re_lang.
Qed.

(** On a stripped line only the first case is left. *)
Lemma push_command_strip (raw : string) :
  push_command (Py.strip raw) = true <-> Shape.matches (Py.strip raw).
Proof.
  rewrite push_command_spec. split; [|now left].
  intros [H|(body & E & _)]; [exact H|].
  apply chomp_some in E. rewrite chomp_strip in E. discriminate.
Qed.

Lemma word_tolower (c : ascii) : word (Py.tolower c) = word c.
Proof. destruct c as [[] [] [] [] [] [] [] []]; reflexivity. Qed.

Lemma forallb_word_lower (s : string) :
  Py.forallb word (Py.lower s) = Py.forallb word s.
Proof.
  induction s as [|c s IH]; simpl; [reflexivity|].
  now rewrite word_tolower, IH.
Qed.

(** A line of the pattern holds a non-word character. *)
Lemma matches_not_word (line : string) :
  Shape.matches line -> Py.forallb word line = false.
Proof.
  intros (receiver & msg & pre & tok & sep & _ & -> & _ & _ & [Hl Hsep] & _).
  rewrite !forallb_append.
  destruct sep as [|c sep]; simpl in *; [lia|].
  apply andb_true_iff in Hsep as [Hc _]. unfold nonword in Hc.
  apply negb_true_iff in Hc. rewrite Hc. simpl.
  now rewrite andb_false_r.
Qed.

Lemma matches_not_exit (line : string) :
  Shape.matches line -> (Py.lower line =? "exit") = false.
Proof.
  intros H. apply matches_not_word in H.
  apply String.eqb_neq. intros E.
  rewrite <- forallb_word_lower, E in H. discriminate.
Qed.

Lemma matches_truthy (line : string) : Shape.matches line -> Py.truthy line = true.
Proof.
  intros (receiver & msg & pre & tok & sep & -> & -> & _ & [[Hl _] _] & _).
  destruct pre; [|reflexivity]. destruct tok; simpl in *; [lia | reflexivity].
Qed.

(** [split(" ", 1)] cuts at the first space. *)
Lemma split_first_space (receiver message : string) :
  Shape.lacks " " receiver ->
  Py.split_space1 (receiver ++ " " ++ message) = [receiver; message].
Proof.
  unfold Shape.lacks. induction receiver as [|c r IH]; simpl in *; [reflexivity|].
  intros H. apply andb_true_iff in H as [Hc Hr].
  apply negb_true_iff in Hc. rewrite Hc. now rewrite (IH Hr).
Qed.

(** Without a space there is nothing to cut. *)
Lemma split_no_space (line : string) :
  Shape.lacks " " line -> Py.split_space1 line = [line].
Proof.
  unfold Shape.lacks. induction line as [|c r IH]; simpl; [reflexivity|].
  intros H. apply andb_true_iff in H as [Hc Hr].
  apply negb_true_iff in Hc. rewrite Hc. now rewrite (IH Hr).
Qed.

End PatternFacts.

(** ** Facts on the statements *)

Module ChatFacts.

Import PssstChat Obs.

Local Open Scope list_scope.

Lemma pushes_app (t u : list event) : pushes (t ++ u) = pushes t ++ pushes u.
Proof.
  induction t as [|e t IH]; simpl; [reflexivity|].
  destruct e; simpl; now rewrite IH.
Qed.

Lemma pushes_draw y rows : pushes (draw_events y rows) = [].
Proof. revert y; induction rows as [|l rows IH]; intros y; simpl; auto. Qed.

Lemma pushes_render height buf : pushes (render_events height buf) = [].
Proof. unfold render_events. simpl. now rewrite pushes_app, pushes_draw. Qed.

Lemma pushes_prompt height user : pushes (prompt_events height user) = [].
Proof. reflexivity. Qed.

Lemma takes_app scr (a b : list event) :
  takes scr (a ++ b) = takes scr a && takes scr b.
Proof. unfold takes. apply forallb_app. Qed.

Lemma call_taken scr e c :
  scr e = None ->
  call scr e c = (Ok tt, Chat (buffer c) (halt c) (trace c ++ [e])).
Proof. intros H. unfold call, bind, emit, ret. simpl. now rewrite H. Qed.

Lemma call_refused scr e ex c :
  scr e = Some ex ->
  call scr e c = (Raise ex, Chat (buffer c) (halt c) (trace c ++ [e])).
Proof. intros H. unfold call, bind, emit, raise. simpl. now rewrite H. Qed.

Lemma draw_eq scr rows : forall y c,
  takes scr (draw_events y rows) = true ->
  draw scr y rows c
  = (Ok tt, Chat (buffer c) (halt c) (trace c ++ draw_events y rows)).
Proof.
  induction rows as [|l rows IH]; intros y c H;
    cbn [draw draw_events] in *.
  - unfold ret. now rewrite app_nil_r; destruct c.
  - unfold takes in H. cbn [forallb] in H.
    destruct (scr (Addstr (1 + y) 0 l)) eqn:E; [discriminate|].
    destruct (scr Clrtoeol) eqn:E'; [discriminate|]. cbn [andb] in H.
    fold (takes scr (draw_events (y + 1) rows)) in H.
    unfold bind at 1. rewrite (call_taken scr _ c E).
    unfold bind at 1. unfold emit at 1. cbn [buffer halt trace].
    rewrite (IH _ _ H). cbn [buffer halt trace].
    now rewrite <- !app_assoc.
Qed.

Lemma render_eq scr height c :
  takes scr (render_events height (buffer c)) = true ->
  render height scr c =
  (Ok tt, Chat (buffer c) (halt c) (trace c ++ render_events height (buffer c))).
Proof.
  unfold render_events. intros H.
  change (Getyx :: draw_events 0 (window height (buffer c)) ++ [MoveBack; Refresh])
    with ([Getyx] ++ draw_events 0 (window height (buffer c)) ++ [MoveBack; Refresh])
    in H.
  rewrite !takes_app in H. apply andb_true_iff in H as [_ H].
  apply andb_true_iff in H as [H _].
  unfold render. unfold bind at 1. unfold emit at 1.
  unfold bind at 1. unfold get_buffer at 1. cbn [buffer halt trace].
  unfold bind at 1. rewrite draw_eq by exact H. cbn [buffer halt trace].
  unfold bind, emit. cbn [buffer halt trace]. simpl.
  now rewrite <- !app_assoc.
Qed.

Lemma prompt_eq scr height user raw c :
  takes scr (prompt_events height user) = true ->
  prompt height user scr raw c =
  (Ok (Py.strip raw),
   Chat (buffer c) (halt c) (trace c ++ prompt_events height user)).
Proof.
  unfold prompt_events, takes. cbn [forallb]. intros H.
  destruct (scr (Addstr (height - 1) 0 (Bytes (user ++ "> ")))) eqn:E1;
    [discriminate|].
  destruct (scr (Move (height - 1) (Py.len (user ++ "> ")))) eqn:E2;
    [discriminate|].
  unfold prompt. cbv zeta.
  unfold bind at 1. rewrite (call_taken scr _ c E1).
  unfold bind at 1. rewrite (call_taken scr _ _ E2).
  unfold bind, emit, ret. cbn [buffer halt trace].
  now rewrite <- !app_assoc.
Qed.

Lemma exit_eq c :
  exit c = (Ok tt, Chat (buffer c) true (trace c ++ [Join; Clear; Refresh])).
Proof.
  unfold exit, bind, emit, set_halt. simpl. now rewrite <- !app_assoc.
Qed.

Lemma pssst_push_eq outcome receiver message c :
  pssst_push outcome receiver message c =
  (Ok tt,
   Chat (buffer c ++ match outcome with
                     | None => []
                     | Some ex => [error_line ex]
                     end)
     (halt c) (trace c ++ [Push receiver message])).
Proof.
  unfold pssst_push, bind, emit, append, ret. destruct outcome; simpl.
  - reflexivity.
  - now rewrite app_nil_r.
Qed.

(** The start of every turn of [run] in which the screen takes the
    calls of [__render] and of [__prompt]. *)
Lemma run_body_eq scr height user raw outcome c :
  takes scr (render_events height (buffer c) ++ prompt_events height user) = true ->
  run_body height user scr raw outcome c =
  let line := Py.strip raw in
  let c1 := Chat (buffer c) (halt c)
              (trace c ++ render_events height (buffer c)
                 ++ prompt_events height user) in
  if negb (Py.truthy line) then (Ok Pending, c1)
  else if (Py.lower line =? "exit")%string then (exit ;; ret Returned) c1
  else if push_command line then (push_line outcome line ;; ret Pending) c1
  else (append (Bytes "Error: Unknown command") ;; ret Pending) c1.
Proof.
  intros H. rewrite takes_app in H. apply andb_true_iff in H as [Hr Hp].
  unfold run_body. unfold bind at 1. rewrite render_eq by exact Hr.
  unfold bind at 1. rewrite prompt_eq by exact Hp. cbn [buffer halt trace].
  rewrite <- app_assoc. cbv zeta.
  destruct (Py.truthy (Py.strip raw)); cbn [negb]; [|reflexivity].
  destruct (Py.lower (Py.strip raw) =? "exit")%string; [reflexivity|].
  destruct (push_command (Py.strip raw)); reflexivity.
Qed.

(** A screen that takes every call takes these. *)
Lemma takes_accepting (calls : list event) : takes accepting calls = true.
Proof. induction calls as [|e calls IH]; simpl; auto. Qed.

End ChatFacts.

(** ** What every statement preserves *)

Module Invariants.

Import PssstChat Obs.

Local Open Scope list_scope.

Create HintDb chat.

Lemma steady_grows {A} (m : M A) : steady m -> grows m.
Proof.
  intros H c. destruct (H c) as (Hh & Hb & Ht).
  repeat split; auto. intros E. now rewrite Hh.
Qed.

Lemma steady_ret {A} (a : A) : steady (ret a).
Proof.
  intros c. simpl. repeat split; exists []; now rewrite app_nil_r.
Qed.

Lemma steady_raise {A} (e : exn) : steady (@raise A e).
Proof.
  intros c. simpl. repeat split; exists []; now rewrite app_nil_r.
Qed.

Lemma steady_emit (e : event) : steady (emit e).
Proof.
  intros c. simpl. repeat split; [exists [] | exists [e]]; auto using app_nil_r.
Qed.

Lemma steady_append (l : line) : steady (append l).
Proof.
  intros c. simpl. repeat split; [exists [l] | exists []]; auto using app_nil_r.
Qed.

Lemma steady_extend (ls : list line) : steady (extend ls).
Proof.
  intros c. simpl. repeat split; [exists ls | exists []]; auto using app_nil_r.
Qed.

Lemma steady_get_buffer : steady get_buffer.
Proof.
  intros c. simpl. repeat split; exists []; now rewrite app_nil_r.
Qed.

Lemma steady_get_halt : steady get_halt.
Proof.
  intros c. simpl. repeat split; exists []; now rewrite app_nil_r.
Qed.

Lemma steady_bind {A B} (m : M A) (k : A -> M B) :
  steady m -> (forall a, steady (k a)) -> steady (bind m k).
Proof.
  intros Hm Hk c. unfold bind.
  destruct (Hm c) as (Hh & (b & Hb) & (t & Ht)).
  destruct (m c) as [[a|e] c1]; simpl in *.
  - destruct (Hk a c1) as (Hh' & (b' & Hb') & (t' & Ht')).
    repeat split.
    + congruence.
    + exists (b ++ b'). now rewrite Hb', Hb, app_assoc.
    + exists (t ++ t'). now rewrite Ht', Ht, app_assoc.
  - repeat split; eauto.
Qed.

Lemma grows_bind {A B} (m : M A) (k : A -> M B) :
  grows m -> (forall a, grows (k a)) -> grows (bind m k).
Proof.
  intros Hm Hk c. unfold bind.
  destruct (Hm c) as (Hh & (b & Hb) & (t & Ht)).
  destruct (m c) as [[a|e] c1]; simpl in *.
  - destruct (Hk a c1) as (Hh' & (b' & Hb') & (t' & Ht')).
    repeat split.
    + auto.
    + exists (b ++ b'). now rewrite Hb', Hb, app_assoc.
    + exists (t ++ t'). now rewrite Ht', Ht, app_assoc.
  - repeat split; eauto.
Qed.

#[export] Hint Resolve steady_ret steady_raise steady_emit steady_append
  steady_extend steady_get_buffer steady_get_halt : chat.

Ltac steady_tac :=
  repeat first
    [ solve [auto with chat]
    | apply steady_bind; [|intros ?] ].

Lemma steady_pssst_push outcome receiver message :
  steady (pssst_push outcome receiver message).
Proof. unfold pssst_push. destruct outcome; steady_tac. Qed.

Lemma steady_pssst_pull outcome : steady (pssst_pull outcome).
Proof. unfold pssst_pull. destruct outcome; steady_tac. Qed.

Lemma steady_call scr e : steady (call scr e).
Proof. unfold call. destruct (scr e); steady_tac. Qed.

#[export] Hint Resolve steady_call : chat.

Lemma steady_draw scr rows : forall y, steady (draw scr y rows).
Proof.
  induction rows as [|l rows IH]; intros y; cbn [draw]; steady_tac.
Qed.

Lemma steady_render height scr : steady (render height scr).
Proof. unfold render. steady_tac. apply steady_draw. Qed.

Lemma steady_prompt height user scr raw : steady (prompt height user scr raw).
Proof. unfold prompt. cbv zeta. steady_tac. Qed.

Lemma steady_enter width title : steady (enter width title).
Proof. unfold enter. steady_tac. Qed.

Lemma steady_leave : steady leave.
Proof. unfold leave. steady_tac. Qed.

Lemma steady_wrap width decode data : steady (wrap width decode data).
Proof.
  unfold wrap. destruct (decode data); [steady_tac|].
  destruct (chunks width l); steady_tac.
Qed.

Lemma steady_wrap_all width decode messages : steady (wrap_all width decode messages).
Proof.
  induction messages as [|data rest IH]; simpl; steady_tac;
    auto using steady_wrap.
Qed.

#[export] Hint Resolve steady_pssst_push steady_pssst_pull steady_draw
  steady_render steady_prompt steady_enter steady_leave steady_wrap
  steady_wrap_all : chat.

Lemma steady_thread_body height width decode scr outcome :
  steady (thread_body height width decode scr outcome).
Proof. unfold thread_body. steady_tac. Qed.

Lemma steady_thread height width decode scr outcomes :
  steady (thread height width decode scr outcomes).
Proof.
  induction outcomes as [|o rest IH]; simpl; steady_tac;
    destruct a; steady_tac; auto using steady_thread_body.
Qed.

Lemma steady_push_line outcome line : steady (push_line outcome line).
Proof.
  unfold push_line.
  destruct (Py.split_space1 line) as [|r [|m [|? ?]]]; steady_tac.
Qed.

(** [exit] is the one statement that writes [halt], and it writes
    [True]. *)
Lemma grows_exit : grows exit.
Proof.
  intros c. rewrite ChatFacts.exit_eq. simpl. repeat split.
  - exists []. now rewrite app_nil_r.
  - eauto.
Qed.

Lemma grows_run_body height user scr raw outcome :
  grows (run_body height user scr raw outcome).
Proof.
  unfold run_body.
  apply grows_bind; [apply steady_grows; auto with chat | intros _].
  apply grows_bind; [apply steady_grows; auto with chat | intros line].
  destruct (negb (Py.truthy line)); [apply steady_grows; steady_tac|].
  destruct (Py.lower line =? "exit")%string.
  - apply grows_bind; [apply grows_exit | intros _; apply steady_grows; steady_tac].
  - destruct (push_command line); apply steady_grows; steady_tac.
    apply steady_push_line.
Qed.

Lemma grows_run_loop height user scr inputs :
  grows (run_loop height user scr inputs).
Proof.
  induction inputs as [|[raw outcome] rest IH]; simpl.
  - apply steady_grows. steady_tac.
  - apply grows_bind; [apply grows_run_body|].
    intros [|]; [apply steady_grows; steady_tac | exact IH].
Qed.

Lemma grows_run height user scr inputs : grows (run height user scr inputs).
Proof.
  unfold run. apply grows_bind; [apply steady_grows; steady_tac|].
  intros _. apply grows_run_loop.
Qed.

(** What [__prompt] returns, when it returns, is the stripped line. *)
Lemma prompt_result height user scr raw c :
  fst (prompt height user scr raw c) = Ok (Py.strip raw) \/
  exists e, fst (prompt height user scr raw c) = Raise e.
Proof.
  unfold prompt, call, bind, emit, ret, raise. cbv zeta. simpl.
  destruct (scr (Addstr (height - 1) 0 (Bytes (user ++ "> "))));
    simpl; [right; eauto|].
  destruct (scr (Move (height - 1) (Py.len (user ++ "> "))));
    simpl; [right; eauto | now left].
Qed.

Lemma draws_ret {A} (a : A) : Views.draws (ret a).
Proof. intros c. simpl. repeat split. exists []. now rewrite app_nil_r. Qed.

Lemma draws_raise {A} (e : exn) : Views.draws (@raise A e).
Proof. intros c. simpl. repeat split. exists []. now rewrite app_nil_r. Qed.

Lemma draws_get_buffer : Views.draws get_buffer.
Proof. intros c. simpl. repeat split. exists []. now rewrite app_nil_r. Qed.

Lemma draws_emit (e : event) : pushes [e] = [] -> Views.draws (emit e).
Proof. intros H c. simpl. repeat split. now exists [e]. Qed.

Lemma draws_bind {A B} (m : M A) (k : A -> M B) :
  Views.draws m -> (forall a, Views.draws (k a)) -> Views.draws (bind m k).
Proof.
  intros Hm Hk c. unfold bind.
  destruct (Hm c) as (Hb & Hh & t & Ht & Hp).
  destruct (m c) as [[a|e] c1]; simpl in *.
  - destruct (Hk a c1) as (Hb' & Hh' & t' & Ht' & Hp').
    repeat split; try congruence.
    exists (t ++ t'). rewrite Ht', Ht, app_assoc. split; [reflexivity|].
    now rewrite ChatFacts.pushes_app, Hp, Hp'.
  - repeat split; eauto.
Qed.

Lemma draws_call scr (e : event) : pushes [e] = [] -> Views.draws (call scr e).
Proof.
  intros H. unfold call. apply draws_bind; [now apply draws_emit|].
  intros _. destruct (scr e); [apply draws_raise | apply draws_ret].
Qed.

Lemma draws_draw scr rows : forall y, Views.draws (draw scr y rows).
Proof.
  induction rows as [|l rows IH]; intros y; cbn [draw].
  - apply draws_ret.
  - apply draws_bind; [now apply draws_call|]. intros _.
    apply draws_bind; [now apply draws_emit|]. intros _. apply IH.
Qed.

Lemma draws_render height scr : Views.draws (render height scr).
Proof.
  unfold render.
  apply draws_bind; [now apply draws_emit|]. intros _.
  apply draws_bind; [apply draws_get_buffer|]. intros buf.
  apply draws_bind; [apply draws_draw|]. intros _.
  apply draws_bind; [now apply draws_emit|]. intros _.
  now apply draws_emit.
Qed.

Lemma draws_prompt height user scr raw : Views.draws (prompt height user scr raw).
Proof.
  unfold prompt. cbv zeta.
  apply draws_bind; [now apply draws_call|]. intros _.
  apply draws_bind; [now apply draws_call|]. intros _.
  apply draws_bind; [now apply draws_emit|]. intros _.
  apply draws_bind; [now apply draws_emit|]. intros _.
  apply draws_ret.
Qed.

Lemma run_body_unfold height user scr raw outcome c :
  run_body height user scr raw outcome c
  = match render height scr c with
    | (Ok _, c1) =>
        match prompt height user scr raw c1 with
        | (Ok line, c2) => Views.on_line outcome line c2
        | (Raise e, c2) => (Raise e, c2)
        end
    | (Raise e, c1) => (Raise e, c1)
    end.
Proof.
  unfold run_body. unfold bind at 1.
  destruct (render height scr c) as [[u|e] c1]; [|reflexivity].
  unfold bind at 1.
  destruct (prompt height user scr raw c1) as [[line|e] c2]; reflexivity.
Qed.

(** A turn of [run] on any screen: the screen refuses a call of
    [__render] or of [__prompt] and the turn ends in what it raises,
    or the line is read and the turn does with it what [on_line]
    says.  Up to there only the screen was talked to. *)
Lemma run_body_cases height user scr raw outcome c :
  exists c1 t,
    buffer c1 = buffer c /\ halt c1 = halt c /\
    trace c1 = trace c ++ t /\ pushes t = [] /\
    ((exists e, run_body height user scr raw outcome c = (Raise e, c1)) \/
     run_body height user scr raw outcome c
     = Views.on_line outcome (Py.strip raw) c1).
Proof.
  rewrite run_body_unfold.
  destruct (draws_render height scr c) as (Hb & Hh & t & Ht & Hp).
  destruct (render height scr c) as [[u|e] c1]; cbn [snd] in *.
  2:{ exists c1, t. repeat split; auto. left. eauto. }
  destruct (draws_prompt height user scr raw c1) as (Hb' & Hh' & t' & Ht' & Hp').
  pose proof (prompt_result height user scr raw c1) as Hres.
  destruct (prompt height user scr raw c1) as [[line|e] c2]; cbn [snd fst] in *.
  - exists c2, (t ++ t'). split; [congruence|]. split; [congruence|].
    split; [now rewrite Ht', Ht, app_assoc|].
    split; [now rewrite ChatFacts.pushes_app, Hp, Hp'|].
    right. destruct Hres as [E|[e E]]; [|discriminate]. now injection E as ->.
  - exists c2, (t ++ t'). split; [congruence|]. split; [congruence|].
    split; [now rewrite Ht', Ht, app_assoc|].
    split; [now rewrite ChatFacts.pushes_app, Hp, Hp'|].
    left. eauto.
Qed.

(** A turn of [run] that changes [halt] is a turn on [exit]. *)
Lemma run_body_halt height user scr raw outcome c :
  halt (snd (run_body height user scr raw outcome c)) = halt c \/
  (Py.lower (Py.strip raw) = "exit"%string /\
   halt (snd (run_body height user scr raw outcome c)) = true).
Proof.
  destruct (run_body_cases height user scr raw outcome c)
    as (c1 & t & Hb & Hh & Ht & Hp & [[e ->]| ->]); [now left|].
  unfold Views.on_line.
  destruct (negb (Py.truthy (Py.strip raw))); [now left|].
  destruct (String.eqb_spec (Py.lower (Py.strip raw)) "exit") as [E|_].
  - right. split; [exact E|]. unfold bind at 1. now rewrite ChatFacts.exit_eq.
  - left. destruct (push_command (Py.strip raw)).
    + assert (steady (push_line outcome (Py.strip raw) ;; ret Pending)) as H
        by (steady_tac; apply steady_push_line).
      destruct (H c1) as (-> & _). congruence.
    + cbn. congruence.
Qed.

End Invariants.

(** ** The two threads, statement by statement *)

Module Threads.

Import PssstChat Obs Views.

Local Open Scope list_scope.

(** *** A program run in one go is the method *)

Lemma bind_ext {A B} (m m' : M A) (k k' : A -> M B) (c : chat) :
  m c = m' c -> (forall a c1, k a c1 = k' a c1) -> bind m k c = bind m' k' c.
Proof.
  intros E H. unfold bind. rewrite E.
  destruct (m' c) as [[a|e] c1]; auto.
Qed.

Lemma denote_bind scr {A B} (m : prog A) (f : A -> prog B) : forall c,
  denote scr (bind_p m f) c = bind (denote scr m) (fun x => denote scr (f x)) c.
Proof.
  induction m as [[a|e]|X q k IH]; intros c; cbn.
  - reflexivity.
  - reflexivity.
  - unfold bind.
    destruct (perform scr q c) as [[x|e] c1]; [apply IH | reflexivity].
Qed.

Lemma denote_do scr {X} (q : prim X) (c : chat) :
  denote scr (do q) c = perform scr q c.
Proof.
  cbn. unfold bind. destruct (perform scr q c) as [[x|e] c1]; reflexivity.
Qed.

Ltac den :=
  repeat first
    [ reflexivity
    | apply denote_do
    | rewrite denote_bind; apply bind_ext; [|intros ? ?] ].

Lemma denote_pssst_push scr outcome receiver message c :
  denote scr (pssst_push_p outcome receiver message) c
  = pssst_push outcome receiver message c.
Proof. unfold pssst_push_p, pssst_push. destruct outcome; den. Qed.

Lemma denote_pssst_pull scr outcome c :
  denote scr (pssst_pull_p outcome) c = pssst_pull outcome c.
Proof. unfold pssst_pull_p, pssst_pull. destruct outcome; den. Qed.

Lemma denote_exit scr c : denote scr exit_p c = exit c.
Proof. unfold exit_p, exit. den. Qed.

Section Programs.
Variables height width : Z.
Variable user : string.
Variable decode : string -> string + list N.
Variable scr : screen.

Lemma denote_draw rows : forall y c,
  denote scr (draw_p y rows) c = draw scr y rows c.
Proof.
  induction rows as [|l rows IH]; intros y c; cbn [draw_p draw];
    [reflexivity|].
  rewrite denote_bind. apply bind_ext; [apply denote_do|]. intros _ c1.
  rewrite denote_bind. apply bind_ext; [apply denote_do|]. intros _ c2.
  apply IH.
Qed.

Lemma denote_render c : denote scr (render_p height) c = render height scr c.
Proof.
  unfold render_p, render.
  rewrite denote_bind. apply bind_ext; [apply denote_do|]. intros _ c1.
  rewrite denote_bind. apply bind_ext; [apply denote_do|]. intros buf c2.
  rewrite denote_bind. apply bind_ext; [apply denote_draw|]. intros _ c3.
  rewrite denote_bind. apply bind_ext; [apply denote_do|]. intros _ c4.
  apply denote_do.
Qed.

Lemma denote_wrap data c :
  denote scr (wrap_p width decode data) c = wrap width decode data c.
Proof.
  unfold wrap_p, wrap. destruct (decode data) as [msg|text]; [reflexivity|].
  destruct (chunks width text); den.
Qed.

Lemma denote_wrap_all messages : forall c,
  denote scr (wrap_all_p width decode messages) c = wrap_all width decode messages c.
Proof.
  induction messages as [|data rest IH]; intros c;
    cbn [wrap_all_p wrap_all]; [reflexivity|].
  rewrite denote_bind. apply bind_ext; [apply denote_wrap|].
  intros _ c1. apply IH.
Qed.

Lemma denote_thread_body outcome c :
  denote scr (thread_body_p height width decode outcome) c
  = thread_body height width decode scr outcome c.
Proof.
  unfold thread_body_p, thread_body.
  rewrite denote_bind. apply bind_ext; [apply denote_pssst_pull|]. intros r c1.
  rewrite denote_bind. apply bind_ext; [apply denote_wrap_all|]. intros _ c2.
  rewrite denote_bind. apply bind_ext; [apply denote_render|]. intros _ c3.
  apply denote_do.
Qed.

Lemma denote_thread outcomes : forall c,
  denote scr (thread_p height width decode outcomes) c
  = thread height width decode scr outcomes c.
Proof.
  induction outcomes as [|o rest IH]; intros c; cbn [thread_p thread];
    rewrite denote_bind; (apply bind_ext; [apply denote_do|]); intros h c1;
    destruct h; try reflexivity.
  rewrite denote_bind. apply bind_ext; [apply denote_thread_body|].
  intros _ c2. apply IH.
Qed.

Lemma denote_prompt raw c :
  denote scr (prompt_p height user raw) c = prompt height user scr raw c.
Proof. unfold prompt_p, prompt. cbv zeta. den. Qed.

Lemma denote_push_line outcome line c :
  denote scr (push_line_p outcome line) c = push_line outcome line c.
Proof.
  unfold push_line_p, push_line.
  destruct (Py.split_space1 line) as [|r [|m [|? ?]]]; try reflexivity.
  apply denote_pssst_push.
Qed.

Lemma denote_run_body raw outcome c :
  denote scr (run_body_p height user raw outcome) c
  = run_body height user scr raw outcome c.
Proof.
  unfold run_body_p, run_body.
  rewrite denote_bind. apply bind_ext; [apply denote_render|]. intros _ c1.
  rewrite denote_bind. apply bind_ext; [apply denote_prompt|]. intros line c2.
  destruct (negb (Py.truthy line)); [reflexivity|].
  destruct (Py.lower line =? "exit")%string.
  - rewrite denote_bind. apply bind_ext; [apply denote_exit | reflexivity].
  - destruct (push_command line); [|reflexivity].
    rewrite denote_bind. apply bind_ext; [apply denote_push_line | reflexivity].
Qed.

Lemma denote_run_loop inputs : forall c,
  denote scr (run_loop_p height user inputs) c = run_loop height user scr inputs c.
Proof.
  induction inputs as [|[raw outcome] rest IH]; intros c;
    cbn [run_loop_p run_loop]; [reflexivity|].
  rewrite denote_bind. apply bind_ext; [apply denote_run_body|].
  intros l c1. destruct l; [reflexivity | apply IH].
Qed.

End Programs.

(** *** What the statements of a program are *)

Lemma all_prims_bind {A B} Q (m : prog A) (f : A -> prog B) :
  all_prims Q m -> (forall a, all_prims Q (f a)) -> all_prims Q (bind_p m f).
Proof.
  induction m as [[a|e]|X q k IH]; cbn; intros Hm Hf; auto.
  destruct Hm as (Hq & Hk). split; auto.
Qed.

Lemma all_prims_do Q {X} (q : prim X) : Q X q -> all_prims Q (do q).
Proof. cbn. auto. Qed.



Section Statements.
Variables height width : Z.
Variable user : string.
Variable decode : string -> string + list N.
Variable Q : forall X, prim X -> Prop.
Hypothesis Q_emit : forall e, Q unit (Emit e).
Hypothesis Q_call : forall e, Q unit (Call e).
Hypothesis Q_get_buffer : Q (list line) GetBuffer.
Hypothesis Q_get_halt : Q bool GetHalt.
Hypothesis Q_bytes : forall s, Q unit (Append (Bytes s)).
Hypothesis Q_chunks :
  forall text cs, chunks width text = Some cs -> Q unit (Extend (map Text cs)).
Hypothesis Q_halt : Q unit (SetHalt true).

Lemma all_pssst_push outcome receiver message :
  all_prims Q (pssst_push_p outcome receiver message).
Proof. destruct outcome; cbn; unfold error_line; repeat split; auto. Qed.

Lemma all_pssst_pull outcome : all_prims Q (pssst_pull_p outcome).
Proof. destruct outcome; cbn; unfold error_line; repeat split; auto. Qed.

Lemma all_draw rows : forall y, all_prims Q (draw_p y rows).
Proof.
  induction rows as [|l rows IH]; intros y; cbn; repeat split; auto.
Qed.

Lemma all_render : all_prims Q (render_p height).
Proof.
  unfold render_p.
  apply all_prims_bind; [now apply all_prims_do | intros _].
  apply all_prims_bind; [now apply all_prims_do | intros buf].
  apply all_prims_bind; [apply all_draw | intros _].
  cbn. repeat split; auto.
Qed.

Lemma all_wrap data : all_prims Q (wrap_p width decode data).
Proof.
  unfold wrap_p. destruct (decode data) as [msg|text]; [exact I|].
  destruct (chunks width text) as [cs|] eqn:E; [|exact I].
  apply all_prims_do. eapply Q_chunks; eassumption.
Qed.

Lemma all_wrap_all messages : all_prims Q (wrap_all_p width decode messages).
Proof.
  induction messages as [|data rest IH]; cbn [wrap_all_p]; [exact I|].
  apply all_prims_bind; [apply all_wrap | intros _; exact IH].
Qed.

Lemma all_thread_body outcome :
  all_prims Q (thread_body_p height width decode outcome).
Proof.
  unfold thread_body_p.
  apply all_prims_bind; [apply all_pssst_pull | intros r].
  apply all_prims_bind; [apply all_wrap_all | intros _].
  apply all_prims_bind; [apply all_render | intros _].
  now apply all_prims_do.
Qed.

Lemma all_thread outcomes : all_prims Q (thread_p height width decode outcomes).
Proof.
  induction outcomes as [|o rest IH]; cbn [thread_p];
    (apply all_prims_bind; [now apply all_prims_do | intros h]);
    destruct h; try exact I.
  apply all_prims_bind; [apply all_thread_body | intros _; exact IH].
Qed.

Lemma all_prompt raw : all_prims Q (prompt_p height user raw).
Proof. cbn. repeat split; auto. Qed.

Lemma all_exit : all_prims Q exit_p.
Proof. cbn. repeat split; auto. Qed.

Lemma all_push_line outcome line : all_prims Q (push_line_p outcome line).
Proof.
  unfold push_line_p.
  destruct (Py.split_space1 line) as [|r [|m [|? ?]]]; try exact I.
  apply all_pssst_push.
Qed.

Lemma all_run_body raw outcome :
  all_prims Q (run_body_p height user raw outcome).
Proof.
  unfold run_body_p.
  apply all_prims_bind; [apply all_render | intros _].
  apply all_prims_bind; [apply all_prompt | intros line].
  destruct (negb (Py.truthy line)); [exact I|].
  destruct (Py.lower line =? "exit")%string.
  - apply all_prims_bind; [apply all_exit | intros _; exact I].
  - destruct (push_command line).
    + apply all_prims_bind; [apply all_push_line | intros _; exact I].
    + cbn. repeat split; auto.
Qed.

Lemma all_run_loop inputs : all_prims Q (run_loop_p height user inputs).
Proof.
  induction inputs as [|[raw outcome] rest IH]; cbn [run_loop_p]; [exact I|].
  apply all_prims_bind; [apply all_run_body | intros l].
  destruct l; [exact I | exact IH].
Qed.

End Statements.


(** *** Steps *)

Section Steps.
Variable scr : screen.

Lemma steps_app (l1 l2 : list side) (s : system) :
  steps scr (l1 ++ l2) s = steps scr l2 (steps scr l1 s).
Proof. apply fold_left_app. Qed.

Lemma steps_invariant (I : system -> Prop) :
  (forall a s, I s -> I (step scr a s)) ->
  forall schedule s, I s -> I (steps scr schedule s).
Proof.
  intros Hstep. unfold steps.
  induction schedule as [|a rest IH]; intros s H; cbn; auto.
Qed.

Lemma perform_extends {X} (q : prim X) (c : chat) :
  exists b t,
    buffer (snd (perform scr q c)) = buffer c ++ b /\
    trace (snd (perform scr q c)) = trace c ++ t.
Proof.
  destruct q; cbn.
  - exists [], [e]. now rewrite app_nil_r.
  - exists [], [e]. unfold call, bind. cbn. rewrite app_nil_r.
    destruct (scr e); auto.
  - exists [l], []. now rewrite app_nil_r.
  - exists ls, []. now rewrite app_nil_r.
  - exists [], []. now rewrite !app_nil_r.
  - exists [], []. now rewrite !app_nil_r.
  - exists [], []. now rewrite !app_nil_r.
Qed.

Lemma perform_halt {X} (q : prim X) (c : chat) :
  writes_true X q ->
  halt (snd (perform scr q c)) = halt c \/
  (sets_halt X q = true /\ halt (snd (perform scr q c)) = true).
Proof.
  destruct q; cbn; auto.
  - intros _. left. unfold call, bind. cbn. destruct (scr e); auto.
  - intros ->. auto.
Qed.

Lemma perform_no_write {X} (q : prim X) (c : chat) :
  no_write X q -> halt (snd (perform scr q c)) = halt c.
Proof.
  destruct q; cbn; auto; try contradiction.
  intros _. unfold call, bind. cbn. destruct (scr e); auto.
Qed.


Lemma perform_adds P {X} (q : prim X) (c : chat) :
  adds P X q -> Forall P (buffer c) -> Forall P (buffer (snd (perform scr q c))).
Proof.
  destruct q; cbn; auto.
  - intros _ H. unfold call, bind. cbn. destruct (scr e); auto.
  - intros Hl H. apply Forall_app. split; auto.
  - intros Hl H. apply Forall_app. split; auto.
Qed.

(** A step of the foreground: nothing happens (it waits in [join],
    or it has no statement left), or its next statement is made. *)
Lemma step_fg (s : system) :
  step scr Fg s = s \/
  exists X (q : prim X) (k : X -> prog loop),
    foreground s = Do X q k /\
    (is_join q = true -> ended (background s) = true) /\
    self (step scr Fg s) = snd (perform scr q (self s)) /\
    background (step scr Fg s) = background s /\
    ((exists x, foreground (step scr Fg s) = k x) \/
     (exists e, foreground (step scr Fg s) = Done (Raise e))).
Proof.
  destruct s as [c fg bg]. unfold step, waits.
  cbn [self foreground background].
  destruct fg as [r|X q k]; cbn [advance]; [now left|].
  destruct (is_join q && negb (ended bg)) eqn:W; [now left|].
  right. exists X, q, k. split; [reflexivity|]. split.
  - intros Hj. rewrite Hj in W. cbn in W. now destruct (ended bg).
  - destruct (perform scr q c) as [[x|e] c']; cbn; eauto 6.
Qed.

(** A step of the background: nothing happens (it has no statement
    left), or its next statement is made. *)
Lemma step_bg (s : system) :
  step scr Bg s = s \/
  exists X (q : prim X) (k : X -> prog loop),
    background s = Do X q k /\
    self (step scr Bg s) = snd (perform scr q (self s)) /\
    foreground (step scr Bg s) = foreground s /\
    ((exists x, background (step scr Bg s) = k x) \/
     (exists e, background (step scr Bg s) = Done (Raise e))).
Proof.
  destruct s as [c fg bg]. unfold step.
  cbn [self foreground background].
  destruct bg as [r|X q k]; cbn [advance]; [now left|].
  right. exists X, q, k. split; [reflexivity|].
  destruct (perform scr q c) as [[x|e] c']; cbn; eauto 6.
Qed.

(** The background thread, left alone, runs its program as the
    method does. *)
Lemma background_runs (fg : prog loop) (p : prog loop) : forall c,
  exists n,
    steps scr (repeat Bg n) (System c fg p)
    = System (snd (denote scr p c)) fg (Done (fst (denote scr p c))).
Proof.
  induction p as [r|X q k IH]; intros c.
  - exists 0%nat. reflexivity.
  - cbn [denote]. unfold bind.
    destruct (perform scr q c) as [[x|e] c'] eqn:E.
    + destruct (IH x c') as (n & Hn). exists (S n).
      cbn [repeat]. unfold steps in *. cbn [fold_left].
      unfold step at 2. cbn [self foreground background advance].
      rewrite E. exact Hn.
    + exists 1%nat. cbn. now rewrite E.
Qed.

(** The background thread, left alone, runs the first part of its
    program as the method does, and goes on with the rest. *)
Lemma background_prefix (fg : prog loop) {A} (m : prog A) (f : A -> prog loop) :
  forall c,
  exists n,
    steps scr (repeat Bg n) (System c fg (bind_p m f))
    = match denote scr m c with
      | (Ok a, c') => System c' fg (f a)
      | (Raise e, c') => System c' fg (Done (Raise e))
      end.
Proof.
  induction m as [[a|e]|X q k IH]; intros c.
  - exists 0%nat. reflexivity.
  - exists 0%nat. reflexivity.
  - cbn [denote bind_p]. unfold bind.
    destruct (perform scr q c) as [[x|e] c'] eqn:E.
    + destruct (IH x c') as (n & Hn). exists (S n).
      cbn [repeat]. unfold steps in *. cbn [fold_left].
      unfold step at 2. cbn [self foreground background advance].
      rewrite E. exact Hn.
    + exists 1%nat. cbn. now rewrite E.
Qed.


(** The head of the loop of [__thread]: with [halt] false the thread
    goes into a turn, with [halt] true it returns. *)
Lemma thread_p_running height width decode (fg : prog loop) o rest (c : chat) :
  halt c = false ->
  step scr Bg (System c fg (thread_p height width decode (o :: rest)))
  = System c fg (thread_body_p height width decode o ~> thread_p height width decode rest).
Proof.
  intros Hh. unfold step.
  cbn [self foreground background thread_p bind_p do advance perform].
  unfold get_halt. now rewrite Hh.
Qed.

Lemma thread_p_halted height width decode (fg : prog loop) outcomes (c : chat) :
  halt c = true ->
  step scr Bg (System c fg (thread_p height width decode outcomes))
  = System c fg (Done (Ok Returned)).
Proof.
  intros Hh. unfold step.
  destruct outcomes;
    cbn [self foreground background thread_p bind_p do advance perform];
    unfold get_halt; now rewrite Hh.
Qed.

(** A thread that has ended makes no step. *)
Lemma step_done (s : system) (r : res loop) :
  background s = Done r -> step scr Bg s = s.
Proof.
  destruct s as [c fg bg]. cbn [background]. intros ->. reflexivity.
Qed.

Lemma steps_done (schedule : list side) : forall s r,
  background s = Done r ->
  forallb is_bg schedule = true ->
  steps scr schedule s = s.
Proof.
  unfold steps.
  induction schedule as [|a rest IH]; intros s r Hd Hs; [reflexivity|].
  cbn in Hs |- *. apply andb_prop in Hs as (Ha & Hs).
  destruct a; [discriminate|].
  rewrite (step_done s r Hd). now apply IH with (r := r).
Qed.

Lemma step_extends (a : side) (s : system) :
  exists b t,
    buffer (self (step scr a s)) = buffer (self s) ++ b /\
    trace (self (step scr a s)) = trace (self s) ++ t.
Proof.
  destruct a.
  - destruct (step_fg s) as [-> | (X & q & k & _ & _ & -> & _)];
      [|apply perform_extends].
    exists [], []. now rewrite !app_nil_r.
  - destruct (step_bg s) as [-> | (X & q & k & _ & -> & _)];
      [|apply perform_extends].
    exists [], []. now rewrite !app_nil_r.
Qed.

Lemma steps_extends (schedule : list side) : forall s,
  exists b t,
    buffer (self (steps scr schedule s)) = buffer (self s) ++ b /\
    trace (self (steps scr schedule s)) = trace (self s) ++ t.
Proof.
  unfold steps.
  induction schedule as [|a rest IH]; intros s; cbn.
  - exists [], []. now rewrite !app_nil_r.
  - destruct (IH (step scr a s)) as (b & t & Hb & Ht).
    destruct (step_extends a s) as (b' & t' & Hb' & Ht').
    exists (b' ++ b), (t' ++ t). now rewrite Hb, Ht, Hb', Ht', <- !app_assoc.
Qed.

Lemma all_prims_step Qf Qb (a : side) (s : system) :
  all_prims Qf (foreground s) -> all_prims Qb (background s) ->
  all_prims Qf (foreground (step scr a s)) /\
  all_prims Qb (background (step scr a s)).
Proof.
  intros Hf Hb. destruct a.
  - destruct (step_fg s) as [-> | (X & q & k & E & _ & _ & -> & [[x ->]|[e ->]])];
      auto; split; auto; try exact I.
    rewrite E in Hf. apply Hf.
  - destruct (step_bg s) as [-> | (X & q & k & E & _ & -> & [[x ->]|[e ->]])];
      auto; split; auto; try exact I.
    rewrite E in Hb. apply Hb.
Qed.

Lemma lawful_step (a : side) (s : system) : lawful s -> lawful (step scr a s).
Proof. intros (Hf & Hb). now apply all_prims_step. Qed.

(** A step leaves [halt] as it is, or it is the statement
    [self.halt = True] of the foreground. *)
Lemma step_halt (a : side) (s : system) :
  lawful s ->
  halt (self (step scr a s)) = halt (self s) \/
  (a = Fg /\
   (exists k, foreground s = Do unit (SetHalt true) k) /\
   halt (self (step scr a s)) = true).
Proof.
  intros (Hf & Hb). destruct a.
  - destruct (step_fg s) as [-> | (X & q & k & E & _ & -> & _)]; [now left|].
    rewrite E in Hf. destruct Hf as (Hq & _).
    destruct (perform_halt q (self s) Hq) as [H|(Hs & H)]; [now left|].
    right. split; [reflexivity|]. split; [|exact H].
    rewrite E. clear E Hq H. destruct q; try discriminate.
    destruct b; [eauto | discriminate].
  - left.
    destruct (step_bg s) as [-> | (X & q & k & E & -> & _)]; [reflexivity|].
    rewrite E in Hb. destruct Hb as (Hq & _). now apply perform_no_write.
Qed.

Lemma step_keeps_halt (a : side) (s : system) :
  lawful s -> halt (self s) = true -> halt (self (step scr a s)) = true.
Proof.
  intros Hl Hh. destruct (step_halt a s Hl) as [E|(_ & _ & E)]; congruence.
Qed.

Lemma steps_lawful (schedule : list side) (s : system) :
  lawful s -> lawful (steps scr schedule s).
Proof. apply steps_invariant. intros a s'. apply lawful_step. Qed.

Lemma steps_keep_halt (schedule : list side) (s : system) :
  lawful s -> halt (self s) = true -> halt (self (steps scr schedule s)) = true.
Proof.
  intros Hl Hh.
  apply (steps_invariant (fun s => lawful s /\ halt (self s) = true));
    [|now split].
  intros a s' (Hl' & Hh'). split; [now apply lawful_step | now apply step_keeps_halt].
Qed.




Lemma fitting_step width (a : side) (s : system) :
  fitting width s -> fitting width (step scr a s).
Proof.
  intros (Hf & Hb & H).
  destruct (all_prims_step _ _ a s Hf Hb) as (Hf' & Hb').
  split; [exact Hf'|]. split; [exact Hb'|].
  destruct a.
  - destruct (step_fg s) as [-> | (X & q & k & E & _ & -> & _)]; [exact H|].
    rewrite E in Hf. destruct Hf as (Hq & _). now apply perform_adds.
  - destruct (step_bg s) as [-> | (X & q & k & E & -> & _)]; [exact H|].
    rewrite E in Hb. destruct Hb as (Hq & _). now apply perform_adds.
Qed.

End Steps.

(** *** The system that [run] starts *)

Section Started.
Variables height width : Z.
Variable user : string.
Variable decode : string -> string + list N.
Variable scr : screen.

Lemma lawful_started inputs outcomes c :
  lawful (started height width user decode inputs outcomes c).
Proof.
  split; cbn [started foreground background].
  - apply all_run_loop; intros; exact I + reflexivity.
  - apply all_thread; intros; exact I.
Qed.


(** Every state that the two threads reach from the start. *)
Lemma reach_lawful schedule inputs outcomes c :
  lawful (steps scr schedule (started height width user decode inputs outcomes c)).
Proof. apply steps_lawful, lawful_started. Qed.


End Started.

End Threads.
(** ** Wrapping a message *)

Module Wrapping.

Import PssstChat Obs.

Local Open Scope list_scope.

Section Pieces.
Context {A : Type}.
Variable data : list A.
Variables w n : nat.

Hypothesis w_pos : 1 <= w.
Hypothesis enough : List.length data <= n * w.
Hypothesis no_more : n * w < List.length data + w.

Lemma firstn_plus (a b : nat) (l : list A) :
  firstn (a + b) l = firstn a l ++ firstn b (skipn a l).
Proof.
  revert l; induction a as [|a IH]; intros l; simpl; [reflexivity|].
  destruct l as [|x l]; simpl.
  - now rewrite firstn_nil.
  - now rewrite IH.
Qed.

Lemma concat_pieces (m : nat) :
  List.concat (map (piece w data) (seq 0 m)) = firstn (m * w) data.
Proof.
  induction m as [|m IH]; [reflexivity|].
  rewrite seq_S, map_app, concat_app, IH. simpl.
  rewrite app_nil_r. unfold piece.
  replace (w + m * w) with (m * w + w) by lia.
  now rewrite firstn_plus.
Qed.

Lemma pieces_concat : List.concat (map (piece w data) (seq 0 n)) = data.
Proof. rewrite concat_pieces. now apply firstn_all2. Qed.

Lemma piece_start (k : nat) : k < n -> k * w < List.length data.
Proof. intros Hk. nia. Qed.

Lemma piece_length (k : nat) :
  List.length (piece w data k) = Nat.min w (List.length data - k * w).
Proof. unfold piece. now rewrite length_firstn, length_skipn. Qed.

Lemma piece_full (k : nat) : S k < n -> List.length (piece w data k) = w.
Proof. intros Hk. rewrite piece_length. nia. Qed.

Lemma piece_bounds (k : nat) : k < n -> 1 <= List.length (piece w data k) <= w.
Proof. intros Hk. rewrite piece_length. pose proof (piece_start k Hk). lia. Qed.

Lemma nth_pieces (k : nat) :
  k < n -> nth k (map (piece w data) (seq 0 n)) [] = piece w data k.
Proof.
  intros Hk.
  rewrite (nth_indep _ [] (piece w data 0)) by now rewrite length_map, length_seq.
  rewrite map_nth, seq_nth by assumption. reflexivity.
Qed.

End Pieces.

(** A slice that starts inside the list is the piece that [firstn] and
    [skipn] cut. *)
Lemma slice_piece {A} (data : list A) (width : Z) (k : nat) :
  (1 <= width)%Z ->
  k * Z.to_nat width < List.length data ->
  Py.slice data (0 + Z.of_nat k * width) (0 + Z.of_nat k * width + width)
  = firstn (Z.to_nat width) (skipn (k * Z.to_nat width) data).
Proof.
  intros Hw Hk. unfold Py.slice, Py.adjust.
  set (L := Z.of_nat (List.length data)).
  assert (Z.of_nat k * width = Z.of_nat (k * Z.to_nat width))%Z as E by nia.
  rewrite Z.add_0_l, E.
  set (i := k * Z.to_nat width) in *.
  destruct (Z.ltb_spec (Z.of_nat i) 0) as [?|_]; [lia|].
  destruct (Z.ltb_spec (Z.of_nat i + width) 0) as [?|_]; [lia|].
  replace (Z.to_nat (Z.min (Z.of_nat i) L)) with i by lia.
  destruct (Z.le_ge_cases (Z.of_nat i + width) L) as [Hle|Hge].
  - f_equal. lia.
  - rewrite !firstn_all2; try reflexivity; rewrite length_skipn; lia.
Qed.

(** The number of starts that [range] yields is [ceil(L / W)]. *)
Lemma range_count (L W : Z) :
  (0 <= L)%Z -> (1 <= W)%Z ->
  (if (0 <? L)%Z then ((L - 0 - 1) / W + 1)%Z else 0%Z) = ceil_div L W.
Proof.
  intros HL HW. unfold ceil_div.
  destruct (Z.ltb_spec 0 L) as [Hpos|Hz].
  - replace (L + W - 1)%Z with (L - 0 - 1 + 1 * W)%Z by lia.
    rewrite Z.div_add by lia. reflexivity.
  - replace L with 0%Z by lia. symmetry. apply Z.div_small. lia.
Qed.

Lemma ceil_div_bounds (L W : Z) :
  (0 <= L)%Z -> (1 <= W)%Z ->
  (0 <= ceil_div L W /\ L <= ceil_div L W * W < L + W)%Z.
Proof.
  intros HL HW. unfold ceil_div.
  pose proof (Z.div_mod (L + W - 1) W ltac:(lia)) as E.
  pose proof (Z.mod_pos_bound (L + W - 1) W ltac:(lia)) as B.
  assert (0 <= (L + W - 1) / W)%Z by (apply Z.div_pos; lia).
  nia.
Qed.

(** The comprehension of [__thread] in terms of pieces. *)
Lemma chunks_pieces (width : Z) (data : list N) :
  (1 <= width)%Z ->
  chunks width data =
  Some (map (fun k => firstn (Z.to_nat width) (skipn (k * Z.to_nat width) data))
          (seq 0 (Z.to_nat (ceil_div (Z.of_nat (List.length data)) width)))).
Proof.
  intros Hw. unfold chunks, Py.range.
  destruct (Z.eqb_spec width 0) as [?|_]; [lia|].
  destruct (Z.ltb_spec 0 width) as [_|?]; [|lia].
  rewrite range_count by lia.
  rewrite map_map. f_equal. apply map_ext_in. intros k Hk.
  apply in_seq in Hk.
  pose proof (ceil_div_bounds (Z.of_nat (List.length data)) width ltac:(lia) Hw) as B.
  apply slice_piece; [assumption | nia].
Qed.

(** C4.  For a decoded message of [L] code points and a width [W >= 1]
    the comprehension of [__thread] yields [ceil(L / W)] chunks; each
    chunk but the last is [W] long, none is empty or longer than [W],
    and the chunks in order give back the message.  [wrap] adds them to
    the transcript in that order, as one [+=]. *)
Theorem wrap_round_trip
    (width : Z) (decode : string -> string + list N)
    (raw : string) (data : list N) (c : chat) :
  (1 <= width)%Z ->
  decode raw = inr data ->
  exists cs,
    chunks width data = Some cs /\
    Z.of_nat (List.length cs) = ceil_div (Z.of_nat (List.length data)) width /\
    List.concat cs = data /\
    (forall k, S k < List.length cs -> Z.of_nat (List.length (nth k cs [])) = width) /\
    (forall piece, In piece cs -> (1 <= Z.of_nat (List.length piece) <= width)%Z) /\
    wrap width decode raw c
    = (Ok tt, Chat (buffer c ++ map Text cs) (halt c) (trace c)).
Proof.
  intros Hw Hd.
  pose proof (ceil_div_bounds (Z.of_nat (List.length data)) width ltac:(lia) Hw)
    as (Hq & Hlo & Hhi).
  set (w := Z.to_nat width).
  set (n := Z.to_nat (ceil_div (Z.of_nat (List.length data)) width)).
  assert (1 <= w) as Hw' by (unfold w; lia).
  assert (List.length data <= n * w) as Hen by (unfold n, w; nia).
  assert (n * w < List.length data + w) as Hno by (unfold n, w; nia).
  eexists. split; [apply chunks_pieces; assumption|]. fold w n.
  split; [|split; [|split; [|split]]].
  - rewrite length_map, length_seq. unfold n. lia.
  - now apply (pieces_concat data w n).
  - intros k Hk. rewrite length_map, length_seq in Hk.
    change (map _ (seq 0 n)) with (map (piece w data) (seq 0 n)).
    rewrite nth_pieces by lia.
    assert (List.length (piece w data k) = w) as -> by (eapply piece_full; eassumption).
    unfold w. lia.
  - intros p Hin. apply in_map_iff in Hin as (k & <- & Hk).
    apply in_seq in Hk.
    assert (1 <= List.length (piece w data k) <= w) as B
      by (eapply piece_bounds; try eassumption; lia).
    unfold piece, w in *. lia.
  - unfold wrap. rewrite Hd, chunks_pieces by assumption. reflexivity.
Qed.

Lemma wrap_round_trip_witness :
  exists cs,
    chunks 3 [104; 101; 108; 108; 111; 33; 33]%N = Some cs /\
    Z.of_nat (List.length cs) = ceil_div (Z.of_nat 7) 3 /\
    List.concat cs = [104; 101; 108; 108; 111; 33; 33]%N /\
    (forall k, S k < List.length cs -> Z.of_nat (List.length (nth k cs [])) = 3%Z) /\
    (forall piece, In piece cs -> (1 <= Z.of_nat (List.length piece) <= 3)%Z) /\
    wrap 3 (fun _ => inr [104; 101; 108; 108; 111; 33; 33]%N) "hello!!" fresh
    = (Ok tt, Chat (buffer fresh ++ map Text cs) false []).
Proof.
  apply (wrap_round_trip 3 (fun _ => inr [104; 101; 108; 108; 111; 33; 33]%N)
           "hello!!" [104; 101; 108; 108; 111; 33; 33]%N fresh).
  - lia.
  - reflexivity.
Defined.

End Wrapping.

(** ** Commands of the session *)

Module Commands.

Import PssstChat Obs PatternFacts ChatFacts.

Local Open Scope list_scope.

(** C1, as amended.  A typed line that, once stripped, has the shape of
    the push pattern and holds a space is pushed cut at its first space:
    [push] is called once, with the text before that space as receiver
    and the text after it as message; the transcript grows by the error
    line of [push] when it fails, and by nothing otherwise.  The line
    is typed in a turn whose [__render] and [__prompt] the screen
    takes. *)
Theorem push_cuts_at_first_space
    (height : Z) (user raw : string) (scr : screen) (outcome : option string)
    (c : chat) (receiver message : string) :
  Shape.matches (Py.strip raw) ->
  Py.strip raw = (receiver ++ " " ++ message)%string ->
  Shape.lacks " " receiver ->
  takes scr (render_events height (buffer c) ++ prompt_events height user) = true ->
  exists c',
    run_body height user scr raw outcome c = (Ok Pending, c') /\
    pushes (trace c') = pushes (trace c) ++ [(receiver, message)] /\
    buffer c' = buffer c ++ match outcome with
                            | None => []
                            | Some ex => [error_line ex]
                            end /\
    halt c' = halt c.
Proof.
  intros Hm Hline Hsp Htk. rewrite (run_body_eq scr _ _ _ _ _ Htk). cbv zeta.
  rewrite (matches_truthy _ Hm), (matches_not_exit _ Hm).
  rewrite (proj2 (push_command_strip raw) Hm). cbn [negb].
  unfold bind at 1, push_line. rewrite Hline, (split_first_space _ _ Hsp).
  rewrite pssst_push_eq. cbn [buffer halt trace]. unfold ret.
  eexists. split; [reflexivity|]. cbn [buffer halt trace].
  rewrite !pushes_app, pushes_render, pushes_prompt. simpl.
  now rewrite app_nil_r.
Qed.

Lemma push_cuts_at_first_space_witness :
  exists c',
    run_body 24 "bob" (sized 24 80) "alice hello there" None fresh
      = (Ok Pending, c') /\
    pushes (trace c') = pushes (trace fresh) ++ [("alice", "hello there")%string] /\
    buffer c' = buffer fresh ++ [] /\
    halt c' = halt fresh.
Proof.
  apply (push_cuts_at_first_space 24 "bob" "alice hello there" (sized 24 80)
           None fresh "alice" "hello there").
  - apply (proj1 (push_command_strip "alice hello there")). vm_compute. reflexivity.
  - reflexivity.
  - reflexivity.
  - reflexivity.
Defined.

(** C1, as stated, fails: ["pssst.alice: hi"] reads as the receiver
    ["pssst.alice"], the separator [": "] and the message ["hi"], and
    the receiver handed to [push] is ["pssst.alice:"]. *)
Lemma push_receiver_keeps_separator :
  Shape.command "pssst.alice: hi" "pssst.alice" "hi" /\
  pushes (trace (snd (run_body 24 "bob" (sized 24 80) "pssst.alice: hi" None fresh)))
    = [("pssst.alice:", "hi")%string] /\
  pushes (trace (snd (run_body 24 "bob" (sized 24 80) "pssst.alice: hi" None fresh)))
    <> [("pssst.alice", "hi")%string].
Proof.
  split; [|split].
  - exists "pssst."%string, "alice"%string, ": "%string.
    unfold Shape.prefix, Shape.token, Shape.separator, Shape.remainder.
    simpl. repeat split; auto; lia.
  - vm_compute. reflexivity.
  - vm_compute. discriminate.
Qed.

(** A line of the pattern without a space leaves [run] by a
    [TypeError]: [split] yields one string where [__pssst_push] takes
    two. *)
Lemma push_without_space_raises
    (height : Z) (user raw : string) (scr : screen) (outcome : option string)
    (c : chat) :
  Shape.matches (Py.strip raw) ->
  Shape.lacks " " (Py.strip raw) ->
  takes scr (render_events height (buffer c) ++ prompt_events height user) = true ->
  exists msg c',
    run_body height user scr raw outcome c = (Raise (TypeError msg), c') /\
    pushes (trace c') = pushes (trace c) /\ buffer c' = buffer c.
Proof.
  intros Hm Hsp Htk. rewrite (run_body_eq scr _ _ _ _ _ Htk). cbv zeta.
  rewrite (matches_truthy _ Hm), (matches_not_exit _ Hm).
  rewrite (proj2 (push_command_strip raw) Hm). cbn [negb].
  unfold bind at 1, push_line. rewrite (split_no_space _ Hsp). unfold raise.
  do 2 eexists. split; [reflexivity|]. cbn [buffer trace].
  rewrite !pushes_app, pushes_render, pushes_prompt. simpl.
  now rewrite app_nil_r.
Qed.

Lemma push_without_space_raises_witness :
  exists msg c',
    run_body 24 "bob" (sized 24 80) "alice:hi" None fresh
      = (Raise (TypeError msg), c') /\
    pushes (trace c') = pushes (trace fresh) /\ buffer c' = buffer fresh.
Proof.
  apply (push_without_space_raises 24 "bob" "alice:hi" (sized 24 80) None fresh).
  - apply (proj1 (push_command_strip "alice:hi")). vm_compute. reflexivity.
  - reflexivity.
  - reflexivity.
Defined.



(** C9.  A typed line that, once stripped, is not empty, is not [exit]
    in any case and has not the shape of the push pattern adds the one
    line [Error: Unknown command] to the transcript; [push] is not
    called and the loop goes on.  The line is typed in a turn whose
    [__render] and [__prompt] the screen takes. *)
Theorem unknown_command_reported
    (height : Z) (user raw : string) (scr : screen) (outcome : option string)
    (c : chat) :
  Py.strip raw <> ""%string ->
  Py.lower (Py.strip raw) <> "exit"%string ->
  ~ Shape.matches (Py.strip raw) ->
  takes scr (render_events height (buffer c) ++ prompt_events height user) = true ->
  exists c',
    run_body height user scr raw outcome c = (Ok Pending, c') /\
    buffer c' = buffer c ++ [Bytes "Error: Unknown command"] /\
    pushes (trace c') = pushes (trace c) /\
    halt c' = halt c.
Proof.
  intros Hne Hex Hm Htk. rewrite (run_body_eq scr _ _ _ _ _ Htk). cbv zeta.
  assert (Py.truthy (Py.strip raw) = true) as ->.
  { destruct (Py.strip raw); [now elim Hne | reflexivity]. }
  apply String.eqb_neq in Hex. rewrite Hex.
  assert (push_command (Py.strip raw) = false) as ->.
  { destruct (push_command (Py.strip raw)) eqn:E; [|reflexivity].
    apply push_command_strip in E. now elim Hm. }
  cbn [negb]. unfold bind, append, ret. cbn [buffer halt trace].
  eexists. split; [reflexivity|]. cbn [buffer halt trace].
  rewrite !pushes_app, pushes_render, pushes_prompt. simpl.
  now rewrite app_nil_r.
Qed.

Lemma unknown_command_reported_witness :
  exists c',
    run_body 24 "bob" (sized 24 80) "a" None fresh = (Ok Pending, c') /\
    buffer c' = buffer fresh ++ [Bytes "Error: Unknown command"] /\
    pushes (trace c') = pushes (trace fresh) /\
    halt c' = halt fresh.
Proof.
  apply (unknown_command_reported 24 "bob" "a" (sized 24 80) None fresh).
  - discriminate.
  - discriminate.
  - intros H. apply (proj2 (push_command_strip "a")) in H.
    vm_compute in H. discriminate H.
  - reflexivity.
Defined.

(** A typed line that is empty once stripped is ignored: nothing is
    pushed and the transcript is unchanged. *)
Lemma blank_line_ignored
    (height : Z) (user raw : string) (scr : screen) (outcome : option string)
    (c : chat) :
  Py.strip raw = ""%string ->
  takes scr (render_events height (buffer c) ++ prompt_events height user) = true ->
  exists c',
    run_body height user scr raw outcome c = (Ok Pending, c') /\
    buffer c' = buffer c /\
    pushes (trace c') = pushes (trace c) /\
    halt c' = halt c.
Proof.
  intros He Htk. rewrite (run_body_eq scr _ _ _ _ _ Htk). cbv zeta.
  rewrite He. cbn [Py.truthy negb].
  eexists. split; [reflexivity|]. cbn [buffer halt trace].
  rewrite !pushes_app, pushes_render, pushes_prompt. simpl.
  now rewrite app_nil_r.
Qed.

Lemma blank_line_ignored_witness :
  exists c',
    run_body 24 "bob" (sized 24 80) "   " None fresh = (Ok Pending, c') /\
    buffer c' = buffer fresh /\
    pushes (trace c') = pushes (trace fresh) /\
    halt c' = halt fresh.
Proof.
  apply (blank_line_ignored 24 "bob" "   " (sized 24 80) None fresh);
    reflexivity.
Defined.

End Commands.

(** ** The background thread *)

Module Poller.

Import PssstChat Obs ChatFacts.

Local Open Scope list_scope.

(** A turn of [__thread] on a failure of [pull], up to the
    rendering. *)
Lemma thread_body_pull_failed height width decode scr cause c :
  thread_body height width decode scr (PullFailed cause) c
  = (render height scr ;; emit Sleep)
      (Chat (buffer c ++ [error_line cause]) (halt c) (trace c ++ [Pull])).
Proof. reflexivity. Qed.

(** The same turn when the screen takes the rendering. *)
Lemma thread_body_pull_failed_taken height width decode scr cause c :
  takes scr (render_events height (buffer c ++ [error_line cause])) = true ->
  thread_body height width decode scr (PullFailed cause) c =
  (Ok tt,
   Chat (buffer c ++ [error_line cause]) (halt c)
     (trace c ++ Pull :: render_events height (buffer c ++ [error_line cause])
        ++ [Sleep])).
Proof.
  intros Htk. rewrite thread_body_pull_failed.
  unfold bind at 1. rewrite render_eq by exact Htk. cbn [buffer halt trace].
  unfold emit. cbn [buffer halt trace].
  now rewrite <- !app_assoc.
Qed.

(** C3, as stated, fails.  On a terminal of two rows the transcript
    of a new instance with the error line is drawn on rows 1, 2 and 3,
    and the screen has rows 0 and 1: [addstr] raises in the rendering
    that follows the failure of [pull].  The error line is in the
    transcript, and the exception leaves [__thread]: [pull] is not
    called a second time, and the thread has ended. *)
Lemma pull_failure_ends_the_poller :
  halt fresh = false /\
  thread 2 80 (fun _ => inr []) (sized 2 80) [PullFailed "timeout"; Pulled []] fresh
  = (Raise (CursesError "addstr() returned ERR"),
     Chat [Bytes INTRO; Bytes ""; Bytes "Error: timeout"] false
       [Pull; Getyx; Addstr 1 0 (Bytes INTRO); Clrtoeol; Addstr 2 0 (Bytes "")]) /\
  thread 2 80 (fun _ => inr []) (sized 2 80) [PullFailed "timeout"; Pulled []] fresh
  <> thread 2 80 (fun _ => inr []) (sized 2 80) [Pulled []]
       (snd (thread_body 2 80 (fun _ => inr []) (sized 2 80)
               (PullFailed "timeout") fresh)) /\
  ended (background
           (steps (sized 2 80) (repeat Bg 8)
              (System fresh (Done (Ok Pending))
                 (thread_p 2 80 (fun _ => inr [])
                    [PullFailed "timeout"; Pulled []]))))
  = true.
Proof.
  split; [reflexivity|]. split; [vm_compute; reflexivity|].
  split; [vm_compute; discriminate | vm_compute; reflexivity].
Qed.

(** C3, as amended.  When [pull] fails with a cause while [halt] is
    false, the turn of [__thread] adds the one line [Error: <cause>]
    to the transcript and wraps no message: what is left of the turn
    is the rendering and the sleep, on every screen, run in one go or
    statement by statement.  When the screen takes the calls of that
    rendering, the turn ends without an exception, with no other
    event than the call of [pull], the rendering and the sleep, and
    the loop goes on with the next turn: it has not returned, and the
    thread is at the head of its loop. *)
Theorem pull_failure_is_reported
    (height width : Z) (decode : string -> string + list N) (scr : screen)
    (cause : string) (rest : list pulled) (c : chat) (fg : prog loop) :
  halt c = false ->
  thread_body height width decode scr (PullFailed cause) c
    = (render height scr ;; emit Sleep)
        (Chat (buffer c ++ [Bytes ("Error: " ++ cause)]) false (trace c ++ [Pull])) /\
  steps scr [Bg; Bg; Bg]
    (System c fg (thread_p height width decode (PullFailed cause :: rest)))
    = System
        (Chat (buffer c ++ [Bytes ("Error: " ++ cause)]) false (trace c ++ [Pull]))
        fg
        ((render_p height ~> do (Emit Sleep)) ~> thread_p height width decode rest) /\
  (takes scr (render_events height (buffer c ++ [Bytes ("Error: " ++ cause)])) = true ->
   exists c',
     thread_body height width decode scr (PullFailed cause) c = (Ok tt, c') /\
     buffer c' = buffer c ++ [Bytes ("Error: " ++ cause)] /\
     trace c' = trace c ++ Pull :: render_events height (buffer c') ++ [Sleep] /\
     halt c' = false /\
     thread height width decode scr (PullFailed cause :: rest) c
       = thread height width decode scr rest c' /\
     thread height width decode scr [PullFailed cause] c = (Ok Pending, c') /\
     exists n,
       steps scr (repeat Bg n)
         (System c fg (thread_p height width decode (PullFailed cause :: rest)))
       = System c' fg (thread_p height width decode rest)).
Proof.
  intros Hh. split; [|split].
  - rewrite thread_body_pull_failed, Hh. reflexivity.
  - unfold steps. cbn [fold_left].
    rewrite Threads.thread_p_running by exact Hh.
    transitivity
      (System
         (Chat (buffer c ++ [Bytes ("Error: " ++ cause)]) (halt c) (trace c ++ [Pull]))
         fg
         ((render_p height ~> do (Emit Sleep)) ~> thread_p height width decode rest));
      [reflexivity | now rewrite Hh].
  - intros Htk.
    pose proof (thread_body_pull_failed_taken height width decode scr cause c Htk)
      as Hb.
    rewrite Hh in Hb.
    eexists. split; [exact Hb|]. cbn [buffer halt trace].
    split; [reflexivity|]. split; [reflexivity|]. split; [reflexivity|].
    split; [|split].
    + cbn [thread]. unfold bind at 1, get_halt at 1. rewrite Hh.
      unfold bind at 1. now rewrite Hb.
    + cbn [thread]. unfold bind at 1, get_halt at 1. rewrite Hh.
      unfold bind at 1. rewrite Hb. reflexivity.
    + destruct (Threads.background_prefix scr fg
                  (thread_body_p height width decode (PullFailed cause))
                  (fun _ => thread_p height width decode rest) c) as (n & Hn).
      rewrite Threads.denote_thread_body, Hb in Hn.
      exists (S n). cbn [repeat]. unfold steps in *. cbn [fold_left].
      rewrite Threads.thread_p_running by exact Hh. exact Hn.
Qed.

Lemma pull_failure_is_reported_witness :
  thread_body 24 80 (fun _ => inr []) (sized 24 80) (PullFailed "timeout") fresh
    = (render 24 (sized 24 80) ;; emit Sleep)
        (Chat (buffer fresh ++ [Bytes "Error: timeout"]) false (trace fresh ++ [Pull])) /\
  steps (sized 24 80) [Bg; Bg; Bg]
    (System fresh (Done (Ok Pending))
       (thread_p 24 80 (fun _ => inr []) (PullFailed "timeout" :: [Pulled []])))
    = System
        (Chat (buffer fresh ++ [Bytes "Error: timeout"]) false (trace fresh ++ [Pull]))
        (Done (Ok Pending))
        ((render_p 24 ~> do (Emit Sleep))
           ~> thread_p 24 80 (fun _ => inr []) [Pulled []]) /\
  exists c',
    thread_body 24 80 (fun _ => inr []) (sized 24 80) (PullFailed "timeout") fresh
      = (Ok tt, c') /\
    buffer c' = buffer fresh ++ [Bytes "Error: timeout"] /\
    trace c' = trace fresh ++ Pull :: render_events 24 (buffer c') ++ [Sleep] /\
    halt c' = false /\
    thread 24 80 (fun _ => inr []) (sized 24 80)
      (PullFailed "timeout" :: [Pulled []]) fresh
      = thread 24 80 (fun _ => inr []) (sized 24 80) [Pulled []] c' /\
    thread 24 80 (fun _ => inr []) (sized 24 80) [PullFailed "timeout"] fresh
      = (Ok Pending, c') /\
    exists n,
      steps (sized 24 80) (repeat Bg n)
        (System fresh (Done (Ok Pending))
           (thread_p 24 80 (fun _ => inr []) (PullFailed "timeout" :: [Pulled []])))
      = System c' (Done (Ok Pending)) (thread_p 24 80 (fun _ => inr []) [Pulled []]).
Proof.
  destruct (pull_failure_is_reported 24 80 (fun _ => inr []) (sized 24 80)
              "timeout" [Pulled []] fresh (Done (Ok Pending)))
    as (H1 & H2 & H3).
  - reflexivity.
  - split; [exact H1|]. split; [exact H2|]. apply H3. reflexivity.
Defined.

End Poller.
(** ** The visible tail of the transcript *)

Module Tail.

Import PssstChat Obs.

Local Open Scope list_scope.

(** With three rows or more, the window is the last [height - 2] lines
    of the transcript, all of them when there are fewer. *)
Lemma window_last (height : Z) (buf : list line) :
  (3 <= height)%Z -> window height buf = last_n (Z.to_nat (height - 2)) buf.
Proof.
  intros Hh. unfold window, Py.slice_from, Py.adjust, last_n.
  destruct (Z.ltb_spec (- (height - 2)) 0) as [_|?]; [|lia].
  f_equal. lia.
Qed.

Lemma window_last_witness :
  window 4 [Bytes "a"; Bytes "b"; Bytes "c"] = last_n 2 [Bytes "a"; Bytes "b"; Bytes "c"].
Proof. apply (window_last 4 [Bytes "a"; Bytes "b"; Bytes "c"]). lia. Defined.

(** With two rows, [-(height - 2)] is [-0]: the slice starts at 0. *)
Lemma window_two_rows (buf : list line) : window 2 buf = buf.
Proof.
  unfold window, Py.slice_from, Py.adjust. simpl.
  now replace (Z.to_nat (Z.min 0 (Z.of_nat (List.length buf)))) with 0 by lia.
Qed.

(** C5 at a window of no line.  On a terminal of two rows the window
    size [height - 2] is 0 and the transcript holds the two lines of a
    fresh instance: [__render] takes both lines, where the last 0 lines
    are none. *)
Theorem window_of_size_zero :
  window 2 (buffer fresh) = [Bytes INTRO; Bytes ""%string] /\
  last_n (Z.to_nat (2 - 2)) (buffer fresh) = [] /\
  window 2 (buffer fresh) <> last_n (Z.to_nat (2 - 2)) (buffer fresh).
Proof. repeat split. discriminate. Qed.

End Tail.

(** ** The halting flag *)

Module Halting.

Import PssstChat Obs ChatFacts Invariants.

Local Open Scope list_scope.

(** C7.  [halt] is false on a new instance.  The polling thread does
    not write it: a turn of [__thread], and the whole loop, leave it
    as they find it, from any state.  A turn of [run] leaves it as it
    is unless the line is the [exit] command, and then it is true; the
    loop of [run] never takes it from true to false.  Statement by
    statement, however the two threads alternate after [run] has
    started them: once [halt] is true it stays true, and a step that
    changes it is the statement [self.halt = True] of the foreground.
    Once [halt] is true, [__thread] leaves its loop at the next test
    of its condition, without a further turn: the instance is
    unchanged and no event is added.  The programs that the steps run
    are the two loops. *)
Theorem halt_is_monotone
    (height width : Z) (user : string) (decode : string -> string + list N)
    (scr : screen) :
  (forall profile pssst c, init profile pssst = Ok c -> halt c = false) /\
  (forall outcome c,
     halt (snd (thread_body height width decode scr outcome c)) = halt c) /\
  (forall outcomes c,
     halt (snd (thread height width decode scr outcomes c)) = halt c) /\
  (forall raw outcome c,
     halt (snd (run_body height user scr raw outcome c)) = halt c \/
     (Py.lower (Py.strip raw) = "exit"%string /\
      halt (snd (run_body height user scr raw outcome c)) = true)) /\
  (forall inputs c,
     halt c = true -> halt (snd (run_loop height user scr inputs c)) = true) /\
  (forall inputs outcomes c schedule more,
     halt (self (steps scr schedule
                   (started height width user decode inputs outcomes c))) = true ->
     halt (self (steps scr (schedule ++ more)
                   (started height width user decode inputs outcomes c))) = true) /\
  (forall inputs outcomes c schedule a,
     halt (self (step scr a
                   (steps scr schedule
                      (started height width user decode inputs outcomes c))))
     <> halt (self (steps scr schedule
                      (started height width user decode inputs outcomes c))) ->
     a = Fg /\
     (exists k,
        foreground (steps scr schedule
                      (started height width user decode inputs outcomes c))
        = Do unit (SetHalt true) k) /\
     halt (self (step scr a
                   (steps scr schedule
                      (started height width user decode inputs outcomes c))))
     = true) /\
  (forall outcomes c,
     halt c = true ->
     thread height width decode scr outcomes c = (Ok Returned, c)) /\
  (forall outcomes c fg,
     halt c = true ->
     step scr Bg (System c fg (thread_p height width decode outcomes))
     = System c fg (Done (Ok Returned))) /\
  (forall outcomes c,
     denote scr (thread_p height width decode outcomes) c
     = thread height width decode scr outcomes c) /\
  (forall inputs c,
     denote scr (run_loop_p height user inputs) c
     = run_loop height user scr inputs c).
Proof.
  repeat apply conj.
  - intros profile pssst c. unfold init.
    destruct (negb (given profile)); [discriminate|].
    destruct pssst; [discriminate|]. now intros [= <-].
  - intros outcome c. apply steady_thread_body.
  - intros outcomes c. apply steady_thread.
  - intros raw outcome c. apply run_body_halt.
  - intros inputs c. apply grows_run_loop.
  - intros inputs outcomes c schedule more Hh.
    rewrite Threads.steps_app.
    apply Threads.steps_keep_halt; [apply Threads.reach_lawful | exact Hh].
  - intros inputs outcomes c schedule a Hne.
    destruct (Threads.step_halt scr a _
                (Threads.reach_lawful height width user decode scr
                   schedule inputs outcomes c)) as [E|H];
      [now elim Hne | exact H].
  - intros outcomes c Hh. destruct outcomes; simpl;
      unfold bind, get_halt; rewrite Hh; reflexivity.
  - intros outcomes c fg Hh. now apply Threads.thread_p_halted.
  - intros outcomes c. apply Threads.denote_thread.
  - intros inputs c. apply Threads.denote_run_loop.
Qed.

Lemma halt_is_monotone_witness :
  halt fresh = false /\
  halt (snd (thread_body 24 80 (fun _ => inr []) (sized 24 80)
               (Pulled ["hi"%string]) (Chat [] true []))) = true /\
  halt (self (steps (sized 24 80) (repeat Fg 13 ++ [Bg; Fg; Bg; Fg; Fg])
                (started 24 80 "bob" (fun _ => inr [])
                   [("exit"%string, None)] [Pulled ["hi"%string]] fresh))) = true /\
  (Fg = Fg /\
   (exists k,
      foreground (steps (sized 24 80) (repeat Fg 12)
                    (started 24 80 "bob" (fun _ => inr [])
                       [("exit"%string, None)] [Pulled ["hi"%string]] fresh))
      = Do unit (SetHalt true) k) /\
   halt (self (step (sized 24 80) Fg
                 (steps (sized 24 80) (repeat Fg 12)
                    (started 24 80 "bob" (fun _ => inr [])
                       [("exit"%string, None)] [Pulled ["hi"%string]] fresh))))
   = true) /\
  thread 24 80 (fun _ => inr []) (sized 24 80) [Pulled ["hi"%string]] (Chat [] true [])
    = (Ok Returned, Chat [] true []).
Proof.
  destruct (halt_is_monotone 24 80 "bob" (fun _ => inr []) (sized 24 80))
    as (H1 & H2 & _ & _ & _ & H6 & H7 & H8 & _).
  split; [|split; [|split; [|split]]].
  - apply (H1 (Some ["alice"%string]) None fresh). reflexivity.
  - apply (H2 (Pulled ["hi"%string]) (Chat [] true [])).
  - apply H6. reflexivity.
  - apply H7. vm_compute. discriminate.
  - apply H8. reflexivity.
Defined.

End Halting.
(** ** Construction *)

Module Construction.

Import PssstChat Obs ChatFacts Invariants.

Local Open Scope list_scope.

Lemma enter_eq width title c :
  enter width title c =
  (Ok tt,
   Chat (buffer c) (halt c)
     (trace c ++ [WrapperBegin; Noecho; Cbreak; Keypad; UseDefaultColors; InitPair;
                  Addstr 0 0 (Bytes (ljust title width)); WrapperEnd])).
Proof.
  unfold enter, bind, emit. simpl. now rewrite <- !app_assoc.
Qed.

(** C8.  Without a profile ([None] or an empty tuple) the constructor
    raises [Exception("Profile required")]; [main] returns
    [Error: Profile required] and has made no call at all, so the mode
    of the terminal is untouched.  With a profile the constructor does
    not raise that error: it succeeds when [Pssst] does and passes on
    what [Pssst] raises, and the first event of [main] is then the
    entry into curses mode. *)
Theorem profile_is_required
    (height width : Z) (user title : string) (scr : screen)
    (profile : option (list string)) (pssst : option exn)
    (inputs : list (string * option string)) :
  (given profile = false ->
     init profile pssst = Raise (Exception "Profile required") /\
     main_chat height width user title scr profile pssst inputs
       = (Some "Error: Profile required"%string, []) /\
     existsb mode_change
       (snd (main_chat height width user title scr profile pssst inputs)) = false) /\
  (given profile = true ->
     init profile None = Ok fresh /\
     (forall e, init profile (Some e) = Raise e) /\
     exists t,
       snd (main_chat height width user title scr profile None inputs)
       = WrapperBegin :: t).
Proof.
  split; intros Hg.
  - assert (init profile pssst = Raise (Exception "Profile required")) as Hi
      by (unfold init; now rewrite Hg).
    unfold main_chat. rewrite Hi. repeat split.
  - assert (init profile None = Ok fresh) as Hi
      by (unfold init; now rewrite Hg).
    split; [exact Hi|]. split.
    + intros e. unfold init. now rewrite Hg.
    + unfold main_chat. rewrite Hi. unfold bind at 1. rewrite enter_eq.
      cbn [buffer halt trace fresh app].
      match goal with
      | |- context [run height user scr inputs ?c1] =>
          destruct (grows_run height user scr inputs c1) as (_ & _ & (t & Ht));
          destruct (run height user scr inputs c1) as [[l|e] c']
      end; cbn [snd trace] in *; unfold leave, emit; cbn [snd trace];
        rewrite Ht; simpl; eauto.
Qed.

Lemma profile_is_required_witness :
  (init None None = Raise (Exception "Profile required") /\
   main_chat 24 80 "bob" "Pssst" (sized 24 80) None None [("exit"%string, None)]
     = (Some "Error: Profile required"%string, []) /\
   existsb mode_change
     (snd (main_chat 24 80 "bob" "Pssst" (sized 24 80) None None
             [("exit"%string, None)])) = false) /\
  (init (Some ["alice"%string]) None = Ok fresh /\
   (forall e, init (Some ["alice"%string]) (Some e) = Raise e) /\
   exists t,
     snd (main_chat 24 80 "bob" "Pssst" (sized 24 80) (Some ["alice"%string]) None
            [("exit"%string, None)])
     = WrapperBegin :: t).
Proof.
  split.
  - apply (profile_is_required 24 80 "bob" "Pssst" (sized 24 80) None None
             [("exit"%string, None)]).
    reflexivity.
  - apply (profile_is_required 24 80 "bob" "Pssst" (sized 24 80)
             (Some ["alice"%string]) None [("exit"%string, None)]).
    reflexivity.
Defined.

(** C10.  A construction with a profile, when [Pssst] does not raise,
    yields an instance whose transcript is the help text of [INTRO]
    followed by one empty line, two lines in all; whatever is typed
    and pulled afterwards and however the two threads alternate,
    statement by statement, these two lines stay at the start of the
    transcript. *)
Theorem transcript_starts_with_intro
    (height width : Z) (user : string) (decode : string -> string + list N)
    (scr : screen) (profile : option (list string)) :
  given profile = true ->
  exists c,
    init profile None = Ok c /\
    buffer c =
      [Bytes "Type 'USERNAME ...' to send a message and 'exit' to exit.";
       Bytes ""] /\
    List.length (buffer c) = 2 /\
    forall inputs outcomes schedule,
      exists b,
        buffer (self (steps scr schedule
                        (started height width user decode inputs outcomes c)))
        = buffer c ++ b.
Proof.
  intros Hg. exists fresh. split; [unfold init; now rewrite Hg|].
  split; [reflexivity|]. split; [reflexivity|].
  intros inputs outcomes schedule.
  destruct (Threads.steps_extends scr schedule
              (started height width user decode inputs outcomes fresh))
    as (b & _ & Hb & _).
  exists b. exact Hb.
Qed.

Lemma transcript_starts_with_intro_witness :
  exists c,
    init (Some ["alice"%string; "secret"%string]) None = Ok c /\
    buffer c =
      [Bytes "Type 'USERNAME ...' to send a message and 'exit' to exit.";
       Bytes ""] /\
    List.length (buffer c) = 2 /\
    forall inputs outcomes schedule,
      exists b,
        buffer (self (steps (sized 24 80) schedule
                        (started 24 80 "bob" (fun _ => inr []) inputs outcomes c)))
        = buffer c ++ b.
Proof.
  apply (transcript_starts_with_intro 24 80 "bob" (fun _ => inr []) (sized 24 80)
           (Some ["alice"%string; "secret"%string])).
  reflexivity.
Defined.

End Construction.

(** ** What the renderer draws *)

Module Rendering.

Import PssstChat Obs Views ChatFacts.

Local Open Scope list_scope.

Lemma drawn_app (t u : list event) : drawn (t ++ u) = drawn t ++ drawn u.
Proof.
  induction t as [|e t IH]; simpl; [reflexivity|].
  destruct e; simpl; now rewrite IH.
Qed.

Lemma drawn_draw_events rows : forall y, drawn (draw_events y rows) = on_rows y rows.
Proof.
  induction rows as [|l rows IH]; intros y; simpl; [reflexivity|].
  now rewrite IH.
Qed.

Lemma drawn_render_events height buf :
  drawn (render_events height buf) = on_rows 0 (window height buf).
Proof.
  unfold render_events. simpl. rewrite drawn_app, drawn_draw_events. simpl.
  now rewrite app_nil_r.
Qed.

Lemma length_on_rows rows : forall y, List.length (on_rows y rows) = List.length rows.
Proof. induction rows as [|l rows IH]; intros y; simpl; auto. Qed.

Lemma on_rows_bounds rows : forall y,
  Forall (fun yl => (1 + y <= fst yl <= y + Z.of_nat (List.length rows))%Z)
    (on_rows y rows).
Proof.
  induction rows as [|l rows IH]; intros y; cbn [on_rows]; constructor.
  - cbn [fst List.length]. lia.
  - eapply Forall_impl; [|apply IH]. intros [y' l'] H.
    cbn [fst List.length] in *. lia.
Qed.

Lemma on_rows_app rows l : forall y,
  on_rows y (rows ++ [l]) =
  on_rows y rows ++ [((1 + y + Z.of_nat (List.length rows))%Z, l)].
Proof.
  induction rows as [|r rows IH]; intros y; cbn [on_rows app List.length].
  - now replace (1 + y + Z.of_nat 0)%Z with (1 + y)%Z by lia.
  - rewrite IH.
    now replace (1 + (y + 1) + Z.of_nat (List.length rows))%Z
      with (1 + y + Z.of_nat (S (List.length rows)))%Z by lia.
Qed.

Lemma length_last_n {A} (n : nat) (l : list A) :
  List.length (last_n n l) = Nat.min (List.length l) n.
Proof. unfold last_n. rewrite length_skipn. lia. Qed.

(** X1.  [__render] changes neither the transcript nor [halt] and
    makes no [push], on every screen and also when a call of [addstr]
    raises.  On a screen of three rows or more that takes its calls,
    it ends without an exception and its calls of [addstr] are one for
    each of the last [height - 2] lines of the transcript (all of them
    when there are fewer), in order, the [i]-th at the start of row
    [1 + i]: every call starts on a row between the title row 0 and
    the prompt row [height - 1].  Where a line that is longer than the
    screen is wide goes on from there is the affair of the
    terminal. *)
Theorem render_stays_in_window (height : Z) (scr : screen) (c : chat) :
  (3 <= height)%Z ->
  (buffer (snd (render height scr c)) = buffer c /\
   halt (snd (render height scr c)) = halt c /\
   exists t, trace (snd (render height scr c)) = trace c ++ t /\ pushes t = []) /\
  (takes scr (render_events height (buffer c)) = true ->
   exists t,
     render height scr c = (Ok tt, Chat (buffer c) (halt c) (trace c ++ t)) /\
     drawn t = on_rows 0 (last_n (Z.to_nat (height - 2)) (buffer c)) /\
     List.length (drawn t)
       = Nat.min (List.length (buffer c)) (Z.to_nat (height - 2)) /\
     Forall (fun yl => (0 < fst yl < height - 1)%Z) (drawn t)).
Proof.
  intros Hh. split; [apply Invariants.draws_render|].
  intros Htk. exists (render_events height (buffer c)).
  split; [now apply render_eq|].
  rewrite drawn_render_events, Tail.window_last by assumption.
  split; [reflexivity|]. split.
  - now rewrite length_on_rows, length_last_n.
  - eapply Forall_impl; [|apply on_rows_bounds].
    intros [y l] H. cbn [fst] in *. rewrite length_last_n in H. lia.
Qed.

Lemma render_stays_in_window_witness :
  (buffer (snd (render 4 (sized 4 80) (Chat [Bytes "a"; Bytes "b"; Bytes "c"] false [])))
   = buffer (Chat [Bytes "a"; Bytes "b"; Bytes "c"] false []) /\
   halt (snd (render 4 (sized 4 80) (Chat [Bytes "a"; Bytes "b"; Bytes "c"] false [])))
   = halt (Chat [Bytes "a"; Bytes "b"; Bytes "c"] false []) /\
   exists t,
     trace (snd (render 4 (sized 4 80) (Chat [Bytes "a"; Bytes "b"; Bytes "c"] false [])))
     = trace (Chat [Bytes "a"; Bytes "b"; Bytes "c"] false []) ++ t /\
     pushes t = []) /\
  exists t,
    render 4 (sized 4 80) (Chat [Bytes "a"; Bytes "b"; Bytes "c"] false [])
      = (Ok tt, Chat [Bytes "a"; Bytes "b"; Bytes "c"] false ([] ++ t)) /\
    drawn t = on_rows 0 (last_n (Z.to_nat (4 - 2)) [Bytes "a"; Bytes "b"; Bytes "c"]) /\
    List.length (drawn t) = Nat.min 3 (Z.to_nat (4 - 2)) /\
    Forall (fun yl => (0 < fst yl < 4 - 1)%Z) (drawn t).
Proof.
  destruct (render_stays_in_window 4 (sized 4 80)
              (Chat [Bytes "a"; Bytes "b"; Bytes "c"] false []))
    as (H1 & H2).
  - lia.
  - split; [exact H1|]. apply H2. reflexivity.
Defined.

(** X2.  On a screen of three rows or more that takes the calls of
    [__render], the line appended last is the line of its last call of
    [addstr], which starts on a row between the title and the prompt:
    the newest line of the transcript is handed to the screen in every
    rendering, below what is left of the older ones. *)
Theorem newest_line_is_drawn
    (height : Z) (scr : screen) (c : chat) (older : list line) (l : line) :
  (3 <= height)%Z ->
  buffer c = older ++ [l] ->
  takes scr (render_events height (buffer c)) = true ->
  exists t above y,
    render height scr c = (Ok tt, Chat (buffer c) (halt c) (trace c ++ t)) /\
    drawn t = above ++ [(y, l)] /\
    (0 < y < height - 1)%Z /\
    List.length above = Nat.min (List.length older) (Z.to_nat (height - 2) - 1).
Proof.
  intros Hh Hb Htk. exists (render_events height (buffer c)).
  rewrite drawn_render_events, Tail.window_last by assumption.
  pose proof (render_eq scr height c Htk) as Hr.
  rewrite Hb. unfold last_n. rewrite length_app. cbn [List.length].
  set (n := Z.to_nat (height - 2)).
  rewrite skipn_app.
  replace (List.length older + 1 - n - List.length older) with 0 by lia.
  cbn [skipn]. rewrite on_rows_app.
  eexists. eexists. split; [rewrite <- Hb; exact Hr|].
  split; [reflexivity|]. rewrite length_on_rows, length_skipn.
  split; lia.
Qed.

Lemma newest_line_is_drawn_witness :
  exists t above y,
    render 4 (sized 4 80) (Chat [Bytes "a"; Bytes "b"; Bytes "c"] false [])
      = (Ok tt, Chat [Bytes "a"; Bytes "b"; Bytes "c"] false ([] ++ t)) /\
    drawn t = above ++ [(y, Bytes "c")] /\
    (0 < y < 4 - 1)%Z /\
    List.length above = Nat.min 2 (Z.to_nat (4 - 2) - 1).
Proof.
  apply (newest_line_is_drawn 4 (sized 4 80)
           (Chat [Bytes "a"; Bytes "b"; Bytes "c"] false [])
           [Bytes "a"; Bytes "b"] (Bytes "c")).
  - lia.
  - reflexivity.
  - reflexivity.
Defined.

End Rendering.

(** ** The transcript over time *)

Module Transcript.

Import PssstChat Obs Views.

Local Open Scope list_scope.


End Transcript.

(** ** Turns of the background thread *)

Module Polling.

Import PssstChat Obs Views ChatFacts Invariants.

Local Open Scope list_scope.

(** The chunks of a text, for a width of one or more. *)
Lemma chunks_sound (width : Z) (data : list N) :
  (1 <= width)%Z ->
  exists cs,
    chunks width data = Some cs /\
    List.concat cs = data /\
    Forall (fun p => (1 <= Z.of_nat (List.length p) <= width)%Z) cs.
Proof.
  intros Hw.
  pose proof (Wrapping.ceil_div_bounds (Z.of_nat (List.length data)) width
                ltac:(lia) Hw) as (Hq & Hlo & Hhi).
  set (w := Z.to_nat width).
  set (n := Z.to_nat (ceil_div (Z.of_nat (List.length data)) width)).
  assert (1 <= w) as Hw' by (unfold w; lia).
  assert (List.length data <= n * w) as Hen by (unfold n, w; nia).
  assert (n * w < List.length data + w) as Hno by (unfold n, w; nia).
  eexists. split; [apply Wrapping.chunks_pieces; assumption|]. fold w n.
  split.
  - now apply (Wrapping.pieces_concat data w n).
  - apply Forall_forall. intros p Hin.
    apply in_map_iff in Hin as (k & <- & Hk). apply in_seq in Hk.
    assert (1 <= List.length (piece w data k) <= w) as B
      by (eapply Wrapping.piece_bounds; try eassumption; lia).
    unfold piece, w in *. lia.
Qed.

Lemma chunks_all_sound (width : Z) (texts : list (list N)) :
  (1 <= width)%Z ->
  exists css,
    chunks_all width texts = Some css /\
    map (@List.concat N) css = texts /\
    Forall (Forall (fun p => (1 <= Z.of_nat (List.length p) <= width)%Z)) css.
Proof.
  intros Hw. induction texts as [|text rest (css & Hc & Hm & Hf)]; simpl.
  - exists []. repeat split; constructor.
  - destruct (chunks_sound width text Hw) as (cs & Hcs & Hcat & Hb).
    exists (cs :: css). rewrite Hcs, Hc. simpl. rewrite Hcat, Hm.
    repeat split. now constructor.
Qed.

Lemma wrap_eq width decode data text cs c :
  decode data = inr text ->
  chunks width text = Some cs ->
  wrap width decode data c
  = (Ok tt, Chat (buffer c ++ map Text cs) (halt c) (trace c)).
Proof. intros Hd Hc. unfold wrap. now rewrite Hd, Hc. Qed.

Lemma wrap_all_eq width decode messages : forall texts css c,
  decode_all decode messages = Some texts ->
  chunks_all width texts = Some css ->
  wrap_all width decode messages c
  = (Ok tt, Chat (buffer c ++ map Text (List.concat css)) (halt c) (trace c)).
Proof.
  induction messages as [|data rest IH]; intros texts css c Hd Hc; simpl in *.
  - injection Hd as <-. injection Hc as <-. simpl. unfold ret.
    rewrite app_nil_r. now destruct c.
  - destruct (decode data) as [msg|text] eqn:Ed; [discriminate|].
    destruct (decode_all decode rest) as [texts'|] eqn:Er; [|discriminate].
    injection Hd as <-. simpl in Hc.
    destruct (chunks width text) as [cs|] eqn:Ec; [|discriminate].
    destruct (chunks_all width texts') as [css'|] eqn:Ecs; [|discriminate].
    injection Hc as <-. unfold bind.
    rewrite (wrap_eq width decode data text cs c Ed Ec).
    rewrite (IH texts' css' _ eq_refl Ecs). cbn [buffer halt trace].
    simpl. now rewrite map_app, app_assoc.
Qed.

(** The loop over the messages stops at the first that does not
    decode. *)
Lemma wrap_all_undecodable width decode before bad after msg : forall texts css c,
  decode_all decode before = Some texts ->
  chunks_all width texts = Some css ->
  decode bad = inl msg ->
  wrap_all width decode (before ++ bad :: after) c
  = (Raise (UnicodeDecodeError msg),
     Chat (buffer c ++ map Text (List.concat css)) (halt c) (trace c)).
Proof.
  induction before as [|data rest IH]; intros texts css c Hd Hc Hb; simpl in *.
  - injection Hd as <-. injection Hc as <-. unfold bind, wrap. rewrite Hb.
    unfold raise. simpl. rewrite app_nil_r. now destruct c.
  - destruct (decode data) as [m|text] eqn:Ed; [discriminate|].
    destruct (decode_all decode rest) as [texts'|] eqn:Er; [|discriminate].
    injection Hd as <-. simpl in Hc.
    destruct (chunks width text) as [cs|] eqn:Ec; [|discriminate].
    destruct (chunks_all width texts') as [css'|] eqn:Ecs; [|discriminate].
    injection Hc as <-. unfold bind at 1.
    rewrite (wrap_eq width decode data text cs c Ed Ec).
    rewrite (IH texts' css' _ eq_refl Ecs Hb). cbn [buffer halt trace].
    simpl. now rewrite map_app, app_assoc.
Qed.

(** A turn of [__thread] on messages that decode, up to the
    rendering. *)
Lemma thread_body_pulled height width decode scr messages texts css c :
  decode_all decode messages = Some texts ->
  chunks_all width texts = Some css ->
  thread_body height width decode scr (Pulled messages) c
  = (render height scr ;; emit Sleep)
      (Chat (buffer c ++ map Text (List.concat css)) (halt c) (trace c ++ [Pull])).
Proof.
  intros Hd Hc. unfold thread_body, pssst_pull.
  unfold bind at 1. unfold bind at 1. unfold emit at 1. unfold ret at 1.
  cbn [or_nil]. unfold bind at 1.
  rewrite (wrap_all_eq width decode messages texts css _ Hd Hc).
  reflexivity.
Qed.

(** X4.  When [pull] returns messages that all decode and the width is
    one or more, the turn of [__thread] adds to the transcript the
    chunks of the first message, then those of the second, and so on:
    each message is one run of lines whose text, put together, is the
    message.  The turn has called [pull] once, and what is left of it
    is the rendering and the sleep.  When the screen takes the calls
    of that rendering, the turn ends without an exception: it has
    rendered the new transcript once and slept once, and [halt] is
    untouched. *)
Theorem pulled_messages_append_in_order
    (height width : Z) (decode : string -> string + list N) (scr : screen)
    (messages : list string) (texts : list (list N)) (c : chat) :
  (1 <= width)%Z ->
  decode_all decode messages = Some texts ->
  exists css,
    chunks_all width texts = Some css /\
    map (@List.concat N) css = texts /\
    thread_body height width decode scr (Pulled messages) c
      = (render height scr ;; emit Sleep)
          (Chat (buffer c ++ map Text (List.concat css)) (halt c)
             (trace c ++ [Pull])) /\
    (takes scr (render_events height (buffer c ++ map Text (List.concat css))) = true ->
     exists c',
       thread_body height width decode scr (Pulled messages) c = (Ok tt, c') /\
       buffer c' = buffer c ++ map Text (List.concat css) /\
       halt c' = halt c /\
       trace c' = trace c ++ Pull :: render_events height (buffer c') ++ [Sleep]).
Proof.
  intros Hw Hd.
  destruct (chunks_all_sound width texts Hw) as (css & Hc & Hm & _).
  exists css. split; [exact Hc|]. split; [exact Hm|].
  pose proof (thread_body_pulled height width decode scr messages texts css c Hd Hc)
    as Hb.
  split; [exact Hb|].
  intros Htk. rewrite Hb.
  unfold bind at 1. rewrite render_eq by exact Htk.
  cbn [buffer halt trace]. unfold emit. cbn [buffer halt trace].
  eexists. split; [reflexivity|]. cbn [buffer halt trace].
  repeat split. now rewrite <- !app_assoc.
Qed.

Lemma pulled_messages_append_in_order_witness :
  exists c',
    thread_body 24 2 (fun s => inr (map N_of_ascii (list_ascii_of_string s)))
      (sized 24 2) (Pulled ["hi!"%string; "ok"%string])
      (Chat [Bytes ""] false []) = (Ok tt, c') /\
    buffer c' = buffer (Chat [Bytes ""] false [])
                  ++ map Text (List.concat [[[104; 105]; [33]]; [[111; 107]]]%N) /\
    halt c' = halt (Chat [Bytes ""] false []) /\
    trace c' = trace (Chat [Bytes ""] false [])
                 ++ Pull :: render_events 24 (buffer c') ++ [Sleep].
Proof.
  destruct (pulled_messages_append_in_order 24 2
              (fun s => inr (map N_of_ascii (list_ascii_of_string s))) (sized 24 2)
              ["hi!"%string; "ok"%string] [[104; 105; 33]; [111; 107]]%N
              (Chat [Bytes ""] false []))
    as (css & Hc & _ & _ & H).
  - lia.
  - reflexivity.
  - vm_compute in Hc. injection Hc as <-. apply H. reflexivity.
Defined.

(** X5.  [__thread] does not catch what [decode] raises.  When a
    pulled message is not valid, the turn ends in the
    [UnicodeDecodeError]: the chunks of the messages before it are in
    the transcript, the message itself and those after it in the same
    answer are lost, nothing is rendered and the thread does not
    sleep.  Statement by statement the thread comes to the same end,
    whatever is left to pull; it has died, and no later step of it
    calls [pull] or changes anything. *)
Theorem undecodable_message_kills_poller
    (height width : Z) (decode : string -> string + list N) (scr : screen)
    (before after : list string) (bad msg : string) (texts : list (list N))
    (rest : list pulled) (c : chat) (fg : prog loop) :
  (1 <= width)%Z ->
  halt c = false ->
  decode_all decode before = Some texts ->
  decode bad = inl msg ->
  exists css c',
    chunks_all width texts = Some css /\
    thread_body height width decode scr (Pulled (before ++ bad :: after)) c
      = (Raise (UnicodeDecodeError msg), c') /\
    buffer c' = buffer c ++ map Text (List.concat css) /\
    trace c' = trace c ++ [Pull] /\
    thread height width decode scr (Pulled (before ++ bad :: after) :: rest) c
      = (Raise (UnicodeDecodeError msg), c') /\
    (exists n,
       steps scr (repeat Bg n)
         (System c fg
            (thread_p height width decode (Pulled (before ++ bad :: after) :: rest)))
       = System c' fg (Done (Raise (UnicodeDecodeError msg)))) /\
    ended (Done (Raise (UnicodeDecodeError msg))) = true /\
    forall schedule,
      forallb is_bg schedule = true ->
      steps scr schedule (System c' fg (Done (Raise (UnicodeDecodeError msg))))
      = System c' fg (Done (Raise (UnicodeDecodeError msg))).
Proof.
  intros Hw Hh Hd Hb.
  destruct (chunks_all_sound width texts Hw) as (css & Hc & _ & _).
  assert (thread_body height width decode scr (Pulled (before ++ bad :: after)) c
          = (Raise (UnicodeDecodeError msg),
             Chat (buffer c ++ map Text (List.concat css)) (halt c)
               (trace c ++ [Pull]))) as Ht.
  { unfold thread_body, pssst_pull.
    unfold bind at 1. unfold bind at 1. unfold emit at 1. unfold ret at 1.
    cbn [or_nil]. unfold bind at 1.
    now rewrite (wrap_all_undecodable width decode before bad after msg
                   texts css _ Hd Hc Hb). }
  rewrite Hh in Ht.
  exists css. eexists. split; [exact Hc|]. split; [exact Ht|].
  cbn [buffer trace]. split; [reflexivity|]. split; [reflexivity|].
  split; [|split; [|split]].
  - cbn [thread]. unfold bind at 1, get_halt at 1. rewrite Hh.
    unfold bind at 1. now rewrite Ht.
  - destruct (Threads.background_prefix scr fg
                (thread_body_p height width decode (Pulled (before ++ bad :: after)))
                (fun _ => thread_p height width decode rest) c) as (n & Hn).
    rewrite Threads.denote_thread_body, Ht in Hn.
    exists (S n). cbn [repeat]. unfold steps in *. cbn [fold_left].
    rewrite Threads.thread_p_running by exact Hh. exact Hn.
  - reflexivity.
  - intros schedule Hs.
    now apply Threads.steps_done with (r := Raise (UnicodeDecodeError msg)).
Qed.

Lemma undecodable_message_kills_poller_witness :
  exists css c',
    chunks_all 2 [[104; 105; 33]]%N = Some css /\
    thread_body 24 2
      (fun s => if (s =? "bad")%string then inl "invalid start byte"%string
                else inr (map N_of_ascii (list_ascii_of_string s)))
      (sized 24 2)
      (Pulled (["hi!"%string] ++ "bad"%string :: ["ok"%string])) fresh
      = (Raise (UnicodeDecodeError "invalid start byte"), c') /\
    buffer c' = buffer fresh ++ map Text (List.concat css) /\
    trace c' = trace fresh ++ [Pull] /\
    thread 24 2
      (fun s => if (s =? "bad")%string then inl "invalid start byte"%string
                else inr (map N_of_ascii (list_ascii_of_string s)))
      (sized 24 2)
      (Pulled (["hi!"%string] ++ "bad"%string :: ["ok"%string]) :: [Pulled []]) fresh
      = (Raise (UnicodeDecodeError "invalid start byte"), c') /\
    (exists n,
       steps (sized 24 2) (repeat Bg n)
         (System fresh (Done (Ok Pending))
            (thread_p 24 2
               (fun s => if (s =? "bad")%string then inl "invalid start byte"%string
                         else inr (map N_of_ascii (list_ascii_of_string s)))
               (Pulled (["hi!"%string] ++ "bad"%string :: ["ok"%string])
                  :: [Pulled []])))
       = System c' (Done (Ok Pending))
           (Done (Raise (UnicodeDecodeError "invalid start byte")))) /\
    ended (Done (Raise (UnicodeDecodeError "invalid start byte"))) = true /\
    forall schedule,
      forallb is_bg schedule = true ->
      steps (sized 24 2) schedule
        (System c' (Done (Ok Pending))
           (Done (Raise (UnicodeDecodeError "invalid start byte"))))
      = System c' (Done (Ok Pending))
          (Done (Raise (UnicodeDecodeError "invalid start byte"))).
Proof.
  apply (undecodable_message_kills_poller 24 2
           (fun s => if (s =? "bad")%string then inl "invalid start byte"%string
                     else inr (map N_of_ascii (list_ascii_of_string s)))
           (sized 24 2)
           ["hi!"%string] ["ok"%string] "bad" "invalid start byte"
           [[104; 105; 33]]%N [Pulled []] fresh (Done (Ok Pending))).
  - lia.
  - reflexivity.
  - reflexivity.
  - reflexivity.
Defined.

(** X6.  While [halt] is false the loop of [__thread] is never left by
    a return: after any number of turns it is waiting for its next
    turn or has been ended by an exception, and [halt] is still
    false.  Nothing in the background thread stops the polling. *)
Theorem poller_stops_only_on_halt
    (height width : Z) (decode : string -> string + list N) (scr : screen)
    (outcomes : list pulled) (c : chat) :
  halt c = false ->
  fst (thread height width decode scr outcomes c) <> Ok Returned /\
  halt (snd (thread height width decode scr outcomes c)) = false.
Proof.
  revert c. induction outcomes as [|o rest IH]; intros c Hh.
  - cbn [thread]. unfold bind, get_halt. rewrite Hh. cbn. split; [discriminate | exact Hh].
  - assert (thread height width decode scr (o :: rest) c
            = match thread_body height width decode scr o c with
              | (Ok _, c1) => thread height width decode scr rest c1
              | (Raise e, c1) => (Raise e, c1)
              end) as E.
    { cbn [thread]. unfold bind at 1, get_halt at 1. rewrite Hh.
      unfold bind at 1.
      destruct (thread_body height width decode scr o c) as [[u|e] c1]; reflexivity. }
    rewrite E.
    destruct (steady_thread_body height width decode scr o c) as (Hs & _).
    destruct (thread_body height width decode scr o c) as [[u|e] c1]; cbn [snd] in Hs.
    + apply IH. congruence.
    + cbn. split; [discriminate | congruence].
Qed.

Lemma poller_stops_only_on_halt_witness :
  fst (thread 24 80 (fun _ => inr []) (sized 24 80)
         [Pulled []; PullFailed "down"; Pulled ["x"%string]] fresh)
    <> Ok Returned /\
  halt (snd (thread 24 80 (fun _ => inr []) (sized 24 80)
               [Pulled []; PullFailed "down"; Pulled ["x"%string]] fresh))
    = false.
Proof.
  apply (poller_stops_only_on_halt 24 80 (fun _ => inr []) (sized 24 80)
           [Pulled []; PullFailed "down"; Pulled ["x"%string]] fresh).
  reflexivity.
Defined.

End Polling.
(** ** The width of the lines of messages *)

Module Wrapped.

Import PssstChat Obs Views.

Local Open Scope list_scope.

(** The lines that [__thread] makes of a message fit the width. *)
Lemma chunks_fit width text cs :
  (1 <= width)%Z ->
  chunks width text = Some cs ->
  Forall (fits width) (map Text cs).
Proof.
  intros Hw Hc.
  destruct (Polling.chunks_sound width text Hw) as (cs' & Hc' & _ & Hb).
  rewrite Hc in Hc'. injection Hc' as <-.
  apply Forall_map. exact Hb.
Qed.

Lemma fitting_started height width user decode inputs outcomes c :
  (1 <= width)%Z ->
  Forall (fits width) (buffer c) ->
  fitting width (started height width user decode inputs outcomes c).
Proof.
  intros Hw H. split; [|split]; cbn [started self foreground background].
  - apply Threads.all_run_loop; intros; exact I.
  - apply Threads.all_thread; intros; try exact I.
    eapply chunks_fit; eassumption.
  - exact H.
Qed.

(** X7.  With a width of one or more, every line of a pulled message
    in the transcript is between one and [width] characters long, at
    any time: if that holds of the transcript when [run] starts the
    thread, it holds after every statement of either thread, whatever
    is typed and pulled, on whatever screen and however the threads
    alternate, also when one of them ends in an exception.  The intro
    and the error lines are not wrapped. *)
Theorem message_lines_fit_the_width
    (height width : Z) (user : string) (decode : string -> string + list N)
    (scr : screen) (inputs : list (string * option string))
    (outcomes : list pulled) (schedule : list side) (c : chat) :
  (1 <= width)%Z ->
  Forall (fits width) (buffer c) ->
  Forall (fits width)
    (buffer (self (steps scr schedule
                     (started height width user decode inputs outcomes c)))).
Proof.
  intros Hw H.
  apply (Threads.steps_invariant scr (fitting width)
           (fun a s => Threads.fitting_step scr width a s) schedule
           (started height width user decode inputs outcomes c)).
  now apply fitting_started.
Qed.

Lemma message_lines_fit_the_width_witness :
  Forall (fits 2)
    (buffer (self (steps (sized 24 2) (repeat Bg 12 ++ [Fg; Fg; Bg])
                     (started 24 2 "bob"
                        (fun s => inr (map N_of_ascii (list_ascii_of_string s)))
                        [("x"%string, None)]
                        [Pulled ["hello"%string]; PullFailed "down"]
                        (Chat [Bytes ""] false []))))).
Proof.
  apply (message_lines_fit_the_width 24 2 "bob"
           (fun s => inr (map N_of_ascii (list_ascii_of_string s)))
           (sized 24 2) [("x"%string, None)]
           [Pulled ["hello"%string]; PullFailed "down"]
           (repeat Bg 12 ++ [Fg; Fg; Bg]) (Chat [Bytes ""] false [])).
  - lia.
  - repeat constructor.
Defined.

End Wrapped.
(** ** The receiver and the message of a push *)

Module Grammar.

Import PssstChat Obs Views PyFacts PatternFacts ChatFacts.

Local Open Scope list_scope.

Lemma word_run_token (tok : string) (c : ascii) (x : string) :
  Py.forallb Re.word tok = true ->
  Re.word c = false ->
  word_run (tok ++ String c x)%string = String.length tok.
Proof.
  intros Ht Hc. induction tok as [|d tok IH]; simpl in *.
  - now rewrite Hc.
  - apply andb_true_iff in Ht as [Hd Ht]. rewrite Hd. now rewrite IH.
Qed.

(** The run of word characters that starts a line of the pattern is
    its token, or the [pssst] of the prefix. *)
Lemma matches_word_run (line : string) :
  Shape.matches line ->
  forall extra, 2 <= word_run (line ++ extra)%string <= 63.
Proof.
  intros (receiver & msg & pre & tok & sep & -> & -> & Hpre & [Hl Htok] & [Hs Hsep] & _)
    extra.
  destruct sep as [|c sep]; simpl in Hs; [lia|].
  simpl in Hsep. apply andb_true_iff in Hsep as [Hc _].
  unfold Re.nonword in Hc. apply negb_true_iff in Hc.
  rewrite !append_assoc.
  destruct Hpre as [->| ->].
  - simpl. rewrite (word_run_token tok c _ Htok Hc). exact Hl.
  - cbn.
    change (Re.word "p") with true. change (Re.word "s") with true.
    change (Re.word "t") with true. change (Re.word ".") with false.
    cbv iota. lia.
Qed.

Lemma push_command_word_run (line : string) :
  push_command line = true -> 2 <= word_run line <= 63.
Proof.
  intros H. apply push_command_spec in H as [H|(body & -> & H)].
  - rewrite <- (append_nil_r line). now apply matches_word_run.
  - now apply matches_word_run.
Qed.

Lemma word_run_lower (s : string) : word_run (Py.lower s) = word_run s.
Proof.
  induction s as [|c s IH]; simpl; [reflexivity|].
  now rewrite word_tolower, IH.
Qed.

Lemma word_run_before_space (r m : string) :
  word_run (r ++ String " " m)%string = word_run r.
Proof.
  induction r as [|c r IH]; simpl; [reflexivity|].
  destruct (Re.word c); [now rewrite IH | reflexivity].
Qed.

Lemma pushes_turn_start height user c :
  pushes (trace c ++ render_events height (buffer c) ++ prompt_events height user)
  = pushes (trace c).
Proof.
  rewrite !pushes_app, pushes_render, pushes_prompt. now rewrite !app_nil_r.
Qed.

(** X8.  The receiver must start with 2 to 63 word characters: a typed
    line that is not empty once stripped and whose first run of word
    characters is shorter than 2 or longer than 63 is answered by the
    line [Error: Unknown command]; nothing is pushed and the loop goes
    on.  The line is typed in a turn whose [__render] and [__prompt]
    the screen takes. *)
Theorem receiver_length_is_checked
    (height : Z) (user raw : string) (scr : screen) (outcome : option string)
    (c : chat) :
  Py.strip raw <> ""%string ->
  word_run (Py.strip raw) < 2 \/ 63 < word_run (Py.strip raw) ->
  takes scr (render_events height (buffer c) ++ prompt_events height user) = true ->
  exists c',
    run_body height user scr raw outcome c = (Ok Pending, c') /\
    buffer c' = buffer c ++ [Bytes "Error: Unknown command"] /\
    pushes (trace c') = pushes (trace c) /\
    halt c' = halt c.
Proof.
  intros Hne Hrun Htk. rewrite (run_body_eq scr _ _ _ _ _ Htk). cbv zeta.
  assert (Py.truthy (Py.strip raw) = true) as ->.
  { destruct (Py.strip raw); [now elim Hne | reflexivity]. }
  assert ((Py.lower (Py.strip raw) =? "exit")%string = false) as ->.
  { apply String.eqb_neq. intros E.
    pose proof (word_run_lower (Py.strip raw)) as Hl. rewrite E in Hl.
    simpl in Hl. lia. }
  assert (push_command (Py.strip raw) = false) as ->.
  { destruct (push_command (Py.strip raw)) eqn:E; [|reflexivity].
    apply push_command_word_run in E. lia. }
  cbn [negb]. unfold bind, append, ret. cbn [buffer halt trace].
  eexists. split; [reflexivity|]. cbn [buffer halt trace].
  repeat split. apply pushes_turn_start.
Qed.

Lemma receiver_length_is_checked_witness :
  exists c',
    run_body 24 "bob" (sized 24 80) "x hello" None fresh = (Ok Pending, c') /\
    buffer c' = buffer fresh ++ [Bytes "Error: Unknown command"] /\
    pushes (trace c') = pushes (trace fresh) /\
    halt c' = halt fresh.
Proof.
  apply (receiver_length_is_checked 24 "bob" "x hello" (sized 24 80) None fresh).
  - discriminate.
  - left. simpl. lia.
  - reflexivity.
Defined.

(** [split(" ", 1)] yields the line, or its two parts around the
    first space. *)
Lemma split_space1_cases (line : string) :
  (Shape.lacks " " line /\ Py.split_space1 line = [line]) \/
  exists r m,
    line = (r ++ " " ++ m)%string /\ Shape.lacks " " r /\
    Py.split_space1 line = [r; m].
Proof.
  induction line as [|c line IH].
  - left. split; reflexivity.
  - destruct (Ascii.eqb_spec c " ") as [->|Hc].
    + right. exists ""%string, line. repeat split.
    + apply Ascii.eqb_neq in Hc.
      destruct IH as [[Hl Hs]|(r & m & -> & Hl & Hs)].
      * left. unfold Shape.lacks in *. simpl. rewrite Hc, Hl, Hs. split; reflexivity.
      * right. exists (String c r), m. unfold Shape.lacks in *. simpl in *.
        rewrite Hc, Hl, Hs. repeat split.
Qed.

(** What [rstrip] leaves does not end with white space. *)
Lemma rstrip_last (s : string) : forall t c,
  Py.rstrip s = (t ++ String c "")%string -> Py.isspace c = false.
Proof.
  induction s as [|a s IH]; intros t c H; simpl in H.
  - destruct t; discriminate.
  - destruct (Py.rstrip s) as [|d r] eqn:E.
    + destruct (Py.isspace a) eqn:Ha.
      * destruct t; discriminate.
      * destruct t as [|b t]; simpl in H.
        -- now injection H as <-.
        -- injection H as _ H. destruct t; discriminate.
    + destruct t as [|b t]; simpl in H; [discriminate|].
      injection H as _ H. now apply (IH t c).
Qed.

(** X9.  A turn of [run] calls [push] at most once, on whatever
    screen and however the turn ends, and what it hands over is well
    formed: the stripped line is the receiver, one space and the
    message; the receiver holds no space and starts with 2 to 63 word
    characters, so it is never empty; the message is never empty. *)
Theorem pushes_are_well_formed
    (height : Z) (user raw : string) (scr : screen) (outcome : option string)
    (c : chat) :
  exists new,
    pushes (trace (snd (run_body height user scr raw outcome c)))
      = pushes (trace c) ++ new /\
    (new = [] \/
     exists r m,
       new = [(r, m)] /\
       Py.strip raw = (r ++ " " ++ m)%string /\
       Shape.lacks " " r /\
       2 <= word_run r <= 63 /\
       m <> ""%string).
Proof.
  destruct (Invariants.run_body_cases height user scr raw outcome c)
    as (c1 & t & _ & _ & Ht & Hp & Hc).
  assert (pushes (trace c1) = pushes (trace c)) as H1
    by (now rewrite Ht, pushes_app, Hp, app_nil_r).
  destruct Hc as [[e ->]| ->].
  { exists []. cbn [snd]. rewrite H1, app_nil_r. auto. }
  unfold on_line.
  destruct (Py.truthy (Py.strip raw)); cbn [negb].
  2:{ exists []. cbn [snd trace ret]. rewrite H1, app_nil_r. auto. }
  destruct (Py.lower (Py.strip raw) =? "exit")%string.
  { exists []. unfold bind at 1. rewrite exit_eq. cbn [snd trace ret].
    rewrite pushes_app, H1. simpl. auto. }
  destruct (push_command (Py.strip raw)) eqn:Hpc.
  2:{ exists []. unfold bind, append, ret. cbn [snd trace].
      rewrite H1, app_nil_r. auto. }
  unfold bind at 1, push_line.
  destruct (split_space1_cases (Py.strip raw)) as [[Hl Hs]|(r & m & Hline & Hl & Hs)];
    rewrite Hs.
  - exists []. unfold raise. cbn [snd trace].
    rewrite H1, app_nil_r. auto.
  - exists [(r, m)]. rewrite pssst_push_eq. cbn [snd trace ret buffer halt].
    rewrite pushes_app, H1. split; [reflexivity|].
    right. exists r, m. split; [reflexivity|]. split; [exact Hline|].
    split; [exact Hl|]. split.
    + apply push_command_word_run in Hpc. rewrite Hline in Hpc.
      simpl in Hpc. now rewrite word_run_before_space in Hpc.
    + intros ->. unfold Py.strip in Hline.
      apply rstrip_last in Hline. discriminate.
Qed.

End Grammar.

(** ** The loop of [run] and the end of [main] *)

Module Loop.

Import PssstChat Obs Views PatternFacts ChatFacts.

Local Open Scope list_scope.


(** X10.  Lines that are empty once stripped are ignored, however many
    are typed: the loop of [run] is still waiting for input, the
    transcript and [halt] are as before and nothing was pushed.  The
    lines are typed in turns whose [__render] and [__prompt] the
    screen takes; the transcript being the same in each, so are the
    calls. *)
Theorem blank_lines_change_nothing
    (height : Z) (user : string) (scr : screen)
    (inputs : list (string * option string)) (c : chat) :
  Forall (fun i => Py.strip (fst i) = ""%string) inputs ->
  takes scr (render_events height (buffer c) ++ prompt_events height user) = true ->
  exists c',
    run_loop height user scr inputs c = (Ok Pending, c') /\
    buffer c' = buffer c /\
    halt c' = halt c /\
    pushes (trace c') = pushes (trace c).
Proof.
  revert c. induction inputs as [|[raw outcome] rest IH]; intros c H Htk; simpl.
  - exists c. repeat split.
  - inversion H as [|? ? Hraw Hrest]; subst. simpl in Hraw.
    destruct (Commands.blank_line_ignored height user raw scr outcome c Hraw Htk)
      as (c1 & E1 & Hb1 & Hp1 & Hh1).
    rewrite <- Hb1 in Htk.
    destruct (IH c1 Hrest Htk) as (c' & E' & Hb' & Hh' & Hp').
    exists c'. unfold bind. rewrite E1. split; [exact E'|].
    repeat split; congruence.
Qed.

Lemma blank_lines_change_nothing_witness :
  exists c',
    run_loop 24 "bob" (sized 24 80) [(""%string, None); ("   "%string, None)] fresh
      = (Ok Pending, c') /\
    buffer c' = buffer fresh /\
    halt c' = halt fresh /\
    pushes (trace c') = pushes (trace fresh).
Proof.
  apply (blank_lines_change_nothing 24 "bob" (sized 24 80)
           [(""%string, None); ("   "%string, None)] fresh).
  - repeat constructor.
  - reflexivity.
Defined.






End Loop.

(** ** The options of the command line *)

Module CommandLine.

Import PssstChat Cli PyFacts.

Local Open Scope string_scope.

Lemma split_lines_not_nil (s : string) : split_lines s <> [].
Proof.
  induction s as [|c s IH]; simpl; [discriminate|].
  destruct (Ascii.eqb c "010"); [discriminate|].
  destruct (split_lines s); [now elim IH | discriminate].
Qed.

Lemma split_lines_one (x : string) :
  Shape.lacks "010" x -> split_lines x = [x].
Proof.
  unfold Shape.lacks. induction x as [|c x IH]; simpl; [reflexivity|].
  intros H. apply andb_true_iff in H as [Hc Hx].
  apply negb_true_iff in Hc. rewrite Hc. now rewrite (IH Hx).
Qed.

(** A line, a newline and more text split into the line and the lines
    of the text. *)
Lemma split_lines_line (x y : string) :
  Shape.lacks "010" x -> split_lines (x ++ nl ++ y) = x :: split_lines y.
Proof.
  unfold Shape.lacks. induction x as [|c x IH]; simpl; [reflexivity|].
  intros H. apply andb_true_iff in H as [Hc Hx].
  apply negb_true_iff in Hc. rewrite Hc.
  simpl in IH. now rewrite (IH Hx).
Qed.

Lemma rstrip_app (x y : string) :
  Py.rstrip y <> "" -> Py.rstrip (x ++ y) = x ++ Py.rstrip y.
Proof.
  intros Hy. induction x as [|c x IH]; simpl; [reflexivity|].
  rewrite IH. destruct (x ++ Py.rstrip y) eqn:E; [|reflexivity].
  apply append_eq_nil in E as [_ E]. now elim Hy.
Qed.

(** What follows the last slash holds no slash. *)
Lemma basename_spec (p : string) :
  has_slash (basename p) = false /\ exists dir, p = dir ++ basename p.
Proof.
  induction p as [|c t (Hs & dir & Hd)]; simpl.
  - split; [reflexivity | now exists ""].
  - destruct (has_slash t) eqn:Ht.
    + split; [exact Hs|]. exists (String c dir). simpl. now rewrite <- Hd.
    + destruct (Ascii.eqb c "/") eqn:Hc.
      * split; [exact Ht|]. apply Ascii.eqb_eq in Hc as ->. now exists "/".
      * split; [simpl; now rewrite Hc, Ht | now exists ""].
Qed.

(** The text of the usage for a script name without a newline. *)
Lemma usage_text (b : string) :
  Shape.lacks "010" b ->
  usage b =
  join_lines
    [ "Usage: " ++ b ++ " [option|username|-]";
      "";
      "Options:";
      "  -h, --help      Shows the usage";
      "  -l, --license   Shows the license";
      "  -v, --version   Shows the version";
      "";
      "Report bugs to <christian@uhsat.de>" ].
Proof.
  intros Hb. unfold usage, dedent.
  set (rest := join_lines
                 [ ""; "    Options:"; "      -h, --help      Shows the usage";
                   "      -l, --license   Shows the license";
                   "      -v, --version   Shows the version"; "";
                   "    Report bugs to <christian@uhsat.de>"; "    " ]).
  assert (format_s main_doc b
          = "" ++ nl ++ ("    Usage: " ++ b ++ " [option|username|-]") ++ nl ++ rest)
    as ->.
  { rewrite append_assoc. rewrite (append_assoc b). reflexivity. }
  rewrite (split_lines_line "") by reflexivity.
  rewrite split_lines_line.
  2:{ unfold Shape.lacks in *. rewrite !forallb_append, Hb. reflexivity. }
  replace (split_lines rest)
    with [ ""; "    Options:"; "      -h, --help      Shows the usage";
           "      -l, --license   Shows the license";
           "      -v, --version   Shows the version"; "";
           "    Report bugs to <christian@uhsat.de>"; "    " ]
    by (vm_compute; reflexivity).
  cbn [map]. 
  change (drop_indent ("    Usage: " ++ b ++ " [option|username|-]"))
    with ("Usage: " ++ b ++ " [option|username|-]").
  change (drop_indent "") with "".
  change (drop_indent "    Options:") with "Options:".
  change (drop_indent "      -h, --help      Shows the usage")
    with "  -h, --help      Shows the usage".
  change (drop_indent "      -l, --license   Shows the license")
    with "  -l, --license   Shows the license".
  change (drop_indent "      -v, --version   Shows the version")
    with "  -v, --version   Shows the version".
  change (drop_indent "    Report bugs to <christian@uhsat.de>")
    with "Report bugs to <christian@uhsat.de>".
  change (drop_indent "    ") with "".
  set (tail1 := join_lines
                  [ ""; "Options:"; "  -h, --help      Shows the usage";
                    "  -l, --license   Shows the license";
                    "  -v, --version   Shows the version"; "";
                    "Report bugs to <christian@uhsat.de>"; "" ]).
  set (tail2 := join_lines
                  [ ""; "Options:"; "  -h, --help      Shows the usage";
                    "  -l, --license   Shows the license";
                    "  -v, --version   Shows the version"; "";
                    "Report bugs to <christian@uhsat.de>" ]).
  change (join_lines ("" :: ("Usage: " ++ b ++ " [option|username|-]") :: _))
    with ("" ++ nl ++ ("Usage: " ++ b ++ " [option|username|-]") ++ nl ++ tail1).
  change (join_lines (("Usage: " ++ b ++ " [option|username|-]") :: _))
    with (("Usage: " ++ b ++ " [option|username|-]") ++ nl ++ tail2).
  unfold Py.strip. rewrite !append_assoc.
  assert (forall z, Py.lstrip ("" ++ nl ++ "Usage: " ++ z) = "Usage: " ++ z) as ->
    by reflexivity.
  rewrite <- (append_assoc "Usage: " b).
  rewrite rstrip_app.
  - rewrite !append_assoc. do 2 f_equal; vm_compute; reflexivity.
  - vm_compute. discriminate.
Qed.

(** X13.  With [/?], [-h], [--help] or no argument at all, [main]
    prints the usage and nothing else, returns [None] and makes no
    call to the terminal or to Pssst.  For a script whose base name
    holds no newline the text is the docstring of [main] without its
    indentation and its blank ends, and its first line names the
    script by what follows the last slash of its path. *)
Theorem help_names_the_script
    (height width : Z) (user title : string) (scr : screen)
    (script : string) (args : list string)
    (profile_of : string -> exn + option (list string)) (pssst : option exn)
    (inputs : list (string * option string)) :
  among (hd "--help" args) ["/?"; "-h"; "--help"] = true ->
  Shape.lacks "010" (basename script) ->
  main height width user title scr script args profile_of pssst inputs
  = Report
      [ join_lines
          [ "Usage: " ++ basename script ++ " [option|username|-]";
            "";
            "Options:";
            "  -h, --help      Shows the usage";
            "  -l, --license   Shows the license";
            "  -v, --version   Shows the version";
            "";
            "Report bugs to <christian@uhsat.de>" ] ]
      None [] /\
  has_slash (basename script) = false /\
  exists dir, script = dir ++ basename script.
Proof.
  intros Ha Hb. split; [|apply basename_spec].
  unfold main. cbv zeta.
  change (match args with [] => "--help" | a :: _ => a end) with (hd "--help" args).
  rewrite Ha. now rewrite usage_text.
Qed.

Lemma help_names_the_script_witness :
  main 24 80 "bob" "Pssst" (sized 24 80) "/usr/local/bin/pssst-chat.py" []
    (fun _ => inr None) None []
  = Report
      [ join_lines
          [ "Usage: " ++ basename "/usr/local/bin/pssst-chat.py" ++ " [option|username|-]";
            "";
            "Options:";
            "  -h, --help      Shows the usage";
            "  -l, --license   Shows the license";
            "  -v, --version   Shows the version";
            "";
            "Report bugs to <christian@uhsat.de>" ] ]
      None [] /\
  has_slash (basename "/usr/local/bin/pssst-chat.py") = false /\
  exists dir, "/usr/local/bin/pssst-chat.py" = dir ++ basename "/usr/local/bin/pssst-chat.py".
Proof.
  apply (help_names_the_script 24 80 "bob" "Pssst" (sized 24 80)
           "/usr/local/bin/pssst-chat.py" [] (fun _ => inr None) None []).
  - reflexivity.
  - reflexivity.
Defined.

(** X14.  When the first argument is one of [/?], [-h], [--help],
    [-l], [--license], [-v], [--version], or when there is none,
    [main] prints one text, returns [None] and starts no session: it
    makes no call to the terminal, and what it does depends neither on
    the arguments that follow nor on what [CLI.profile], [Pssst], the
    screen or the user would have answered. *)
Theorem options_start_no_session
    (height width : Z) (user title : string) (scr : screen)
    (script : string) (args : list string)
    (profile_of : string -> exn + option (list string)) (pssst : option exn)
    (inputs : list (string * option string)) :
  among (hd "--help" args)
    ["/?"; "-h"; "--help"; "-l"; "--license"; "-v"; "--version"] = true ->
  (exists text,
     main height width user title scr script args profile_of pssst inputs
     = Report [text] None []) /\
  forall height' width' user' title' scr' more profile_of' pssst' inputs',
    main height' width' user' title' scr' script (hd "--help" args :: more)
      profile_of' pssst' inputs'
    = main height width user title scr script args profile_of pssst inputs.
Proof.
  intros Ha. unfold main. cbv zeta. cbn [hd].
  change (match args with [] => "--help" | a :: _ => a end) with (hd "--help" args).
  set (arg := hd "--help" args) in *.
  unfold among in *. cbn [existsb] in *.
  destruct (arg =? "/?"); [split; [eexists|]; reflexivity|].
  destruct (arg =? "-h"); [split; [eexists|]; reflexivity|].
  destruct (arg =? "--help"); [split; [eexists|]; reflexivity|].
  destruct (arg =? "-l"); [split; [eexists|]; reflexivity|].
  destruct (arg =? "--license"); [split; [eexists|]; reflexivity|].
  destruct (arg =? "-v"); [split; [eexists|]; reflexivity|].
  destruct (arg =? "--version"); [split; [eexists|]; reflexivity|].
  discriminate Ha.
Qed.

Lemma options_start_no_session_witness :
  (exists text,
     main 24 80 "bob" "Pssst" (sized 24 80) "pssst-chat.py" ["-v"; "alice"]
       (fun _ => inr None) None []
     = Report [text] None []) /\
  forall height' width' user' title' scr' more profile_of' pssst' inputs',
    main height' width' user' title' scr' "pssst-chat.py"
      (hd "--help" ["-v"; "alice"] :: more) profile_of' pssst' inputs'
    = main 24 80 "bob" "Pssst" (sized 24 80) "pssst-chat.py" ["-v"; "alice"]
        (fun _ => inr None) None [].
Proof.
  apply (options_start_no_session 24 80 "bob" "Pssst" (sized 24 80) "pssst-chat.py"
           ["-v"; "alice"] (fun _ => inr None) None []).
  reflexivity.
Defined.

End CommandLine.

(** ** The title bar and the typed line *)

Module Surface.

Import PssstChat Obs PyFacts ChatFacts.




Lemma rstrip_idempotent (s : string) : Py.rstrip (Py.rstrip s) = Py.rstrip s.
Proof.
  induction s as [|a s IH]; simpl; [reflexivity|].
  destruct (Py.rstrip s) as [|d r] eqn:E.
  - destruct (Py.isspace a) eqn:Ha; simpl; [reflexivity | now rewrite Ha].
  - change (Py.rstrip (String a (String d r)))
      with (match Py.rstrip (String d r) with
            | EmptyString => if Py.isspace a then EmptyString else String a EmptyString
            | String _ _ as t => String a t
            end).
    now rewrite IH.
Qed.

Lemma lstrip_stripped (s : string) : Py.lstrip (Py.strip s) = Py.strip s.
Proof.
  unfold Py.strip. induction s as [|a s IH]; simpl; [reflexivity|].
  destruct (Py.isspace a) eqn:Ha; [exact IH|].
  simpl. destruct (Py.rstrip s); rewrite ?Ha; simpl; now rewrite Ha.
Qed.

Lemma strip_idempotent (s : string) : Py.strip (Py.strip s) = Py.strip s.
Proof.
  unfold Py.strip at 1. rewrite lstrip_stripped.
  unfold Py.strip. apply rstrip_idempotent.
Qed.

Lemma prompt_strip height user scr raw c :
  prompt height user scr (Py.strip raw) c = prompt height user scr raw c.
Proof. unfold prompt. now rewrite strip_idempotent. Qed.

(** X16.  White space around the typed line does not count: a turn of
    [run] on a line and on the same line without the white space at
    its ends do the same and leave the same instance, on every
    screen. *)
Theorem surrounding_space_is_ignored
    (height : Z) (user raw : string) (scr : screen) (outcome : option string)
    (c : chat) :
  run_body height user scr raw outcome c
  = run_body height user scr (Py.strip raw) outcome c.
Proof.
  rewrite !Invariants.run_body_unfold.
  destruct (render height scr c) as [[u|e] c1]; [|reflexivity].
  now rewrite prompt_strip.
Qed.

End Surface.
